(** * yank-cli: resolution and download pipeline

    A shallow embedding of [src/cli/yank-cli.py] and the properties of its
    sanitizer, retry loops, playlist pagination, track selection and
    idempotent persistence.

    Python [str] values are sequences of Unicode code points; they are
    modelled as [list N].  Stateful code is written in a small
    state-and-exception monad over a [world] (the file system and the
    trace of observable events); the remote services and the operating
    system are an environment [env] the program runs against. *)

From Stdlib Require Import ZArith NArith Lia Bool String Ascii.
From stdpp Require Import base list option gmap.

Local Open Scope Z_scope.
#[local] Set Warnings "-register-all".

(** ** Python strings *)

Abbreviation str := (list N).

(** An ASCII literal as a Python string. *)
Definition cps (s : string) : str :=
  map N_of_ascii (list_ascii_of_string s).

(** [str.isspace] for one code point (CPython's [_PyUnicode_IsWhitespace]):
    the code points that [str.split()] and [str.strip()] treat as
    whitespace. *)
Definition py_isspace (c : N) : bool :=
  ((9 <=? c) && (c <=? 13) || (28 <=? c) && (c <=? 32) || (c =? 133) ||
   (c =? 160) || (c =? 5760) || (8192 <=? c) && (c <=? 8202) ||
   (c =? 8232) || (c =? 8233) || (c =? 8239) || (c =? 8287) ||
   (c =? 12288))%N.

(** [sep.join(words)] *)
Fixpoint py_join (sep : str) (words : list str) : str :=
  match words with
  | [] => []
  | [w] => w
  | w :: ws => w ++ sep ++ py_join sep ws
  end.

(** [s.split()]: the scanning loop of CPython's whitespace split.  [cur]
    holds the word being read, newest character first. *)
Fixpoint split_scan (cur : str) (s : str) : list str :=
  match s with
  | [] => match cur with [] => [] | _ => [rev cur] end
  | c :: s' =>
      if py_isspace c then
        match cur with
        | [] => split_scan [] s'
        | _ => rev cur :: split_scan [] s'
        end
      else split_scan (c :: cur) s'
  end.

Definition py_split (s : str) : list str := split_scan [] s.

(** [s.lstrip()] and [s.strip()] *)
Fixpoint py_lstrip (s : str) : str :=
  match s with
  | [] => []
  | c :: s' => if py_isspace c then py_lstrip s' else s
  end.

Definition py_strip (s : str) : str := rev (py_lstrip (rev (py_lstrip s))).

(** [s.split(sep)] for a one-character separator: never empty. *)
Fixpoint split_on (sep : N) (cur : str) (s : str) : list str :=
  match s with
  | [] => [rev cur]
  | c :: s' =>
      if (c =? sep)%N then rev cur :: split_on sep [] s'
      else split_on sep (c :: cur) s'
  end.

(** [needle in s] *)
Fixpoint starts_with (p s : str) : bool :=
  match p, s with
  | [], _ => true
  | a :: p', b :: s' => (a =? b)%N && starts_with p' s'
  | _ :: _, [] => false
  end.

Fixpoint py_contains (needle s : str) : bool :=
  starts_with needle s ||
  match s with
  | [] => false
  | _ :: s' => py_contains needle s'
  end.

(** ** Sanitizer *)

(** [FILENAME_SANITIZATION_PATTERN]: a regular-expression character class
    listing, in this order, the code points of
    less-than, greater-than, colon, double quote, slash, backslash, bar,
    question mark, asterisk, bar (again) and single quote. *)
Definition forbidden_chars : list N :=
  [60; 62; 58; 34; 47; 92; 124; 63; 42; 124; 39]%N.

Definition is_forbidden (c : N) : bool :=
  existsb (N.eqb c) forbidden_chars.

(** [re.sub(FILENAME_SANITIZATION_PATTERN, '', name)] *)
Definition strip_forbidden (name : str) : str :=
  filter (fun c => is_forbidden c = false) name.

(** [normalize_filename] *)
Definition normalize_filename (name : str) : str :=
  let name := strip_forbidden name in
  let name := py_join [32%N] (py_split name) in
  py_strip name.

(** ** Properties a file name is sanitized to *)

Definition no_forbidden (s : str) : Prop := Forall (fun c => is_forbidden c = false) s.

Definition no_leading_space (s : str) : Prop :=
  match s with [] => True | c :: _ => py_isspace c = false end.

Definition no_trailing_space (s : str) : Prop := no_leading_space (rev s).

(** no two adjacent whitespace characters *)
Fixpoint no_space_run (s : str) : Prop :=
  match s with
  | c :: (d :: _) as s' => ~ (py_isspace c = true /\ py_isspace d = true) /\ no_space_run s'
  | _ => True
  end.

(** A word of [split()]: non-empty, no whitespace in it. *)
Definition wordlike (w : str) : Prop :=
  w <> [] /\ Forall (fun c => py_isspace c = false) w.

(** ** JSON values, exceptions and results *)

(** What [response.json()] returns.  JSON numbers are the integers the
    services exchange; a parsed object is its key/value pairs, each key
    once. *)
Inductive json :=
| JNull
| JBool (b : bool)
| JNum (n : Z)
| JStr (s : str)
| JArr (items : list json)
| JObj (kvs : list (str * json)).

(** The exception classes that can reach the script.  Every error of the
    [requests] library ([ConnectionError], [Timeout], [HTTPError],
    [JSONDecodeError], ...) is a [RequestException]. *)
Inductive exn :=
| RequestException | KeyError | TypeError | AttributeError | ValueError | OSError.

(** A Python computation returns, raises, or (for the [while True] loop of
    the playlist resolver) runs past the fuel it was given. *)
Inductive res (A : Type) :=
| Ret (a : A)
| Raise (e : exn)
| OutOfFuel.
Arguments Ret {A} a.
Arguments Raise {A} e.
Arguments OutOfFuel {A}.

Definition res_bind {A B} (r : res A) (k : A -> res B) : res B :=
  match r with
  | Ret a => k a
  | Raise e => Raise e
  | OutOfFuel => OutOfFuel
  end.

Fixpoint res_mapM {A B} (f : A -> res B) (l : list A) : res (list B) :=
  match l with
  | [] => Ret []
  | x :: l' =>
      res_bind (f x) (fun y => res_bind (res_mapM f l') (fun ys => Ret (y :: ys)))
  end.

Fixpoint assoc (k : str) (kvs : list (str * json)) : option json :=
  match kvs with
  | [] => None
  | (k', v) :: kvs' => if decide (k = k') then Some v else assoc k kvs'
  end.

(** [v[key]] for a string key: [KeyError] on a dict without the key,
    [TypeError] on anything that is not a dict. *)
Definition py_getitem (v : json) (key : str) : res json :=
  match v with
  | JObj kvs =>
      match assoc key kvs with
      | Some x => Ret x
      | None => Raise KeyError
      end
  | _ => Raise TypeError
  end.

(** [v.get(key, dflt)]: only a dict has [get]. *)
Definition py_get (v : json) (key : str) (dflt : json) : res json :=
  match v with
  | JObj kvs => Ret (default dflt (assoc key kvs))
  | _ => Raise AttributeError
  end.

(** Iterating a value ([for track in v], [list.extend(v)]): a list gives
    its items, a string its characters, a dict its keys. *)
Definition py_iter (v : json) : res (list json) :=
  match v with
  | JArr items => Ret items
  | JStr s => Ret (map (fun c => JStr [c]) s)
  | JObj kvs => Ret (map (fun kv => JStr (fst kv)) kvs)
  | _ => Raise TypeError
  end.

(** Truth value of a Python object ([if not next_offset]). *)
Definition truthy (v : json) : bool :=
  match v with
  | JNull => false
  | JBool b => b
  | JNum n => negb (n =? 0)
  | JStr s => match s with [] => false | _ => true end
  | JArr l => match l with [] => false | _ => true end
  | JObj kvs => match kvs with [] => false | _ => true end
  end.

(** [v == False]: [False] and [0] are equal in Python. *)
Definition eq_False (v : json) : bool :=
  match v with
  | JBool false => true
  | JNum 0 => true
  | _ => false
  end.

(** [normalize_filename(v)]: [re.sub] raises [TypeError] unless [v] is a
    string. *)
Definition normalize_value (v : json) : res str :=
  match v with
  | JStr s => Ret (normalize_filename s)
  | _ => Raise TypeError
  end.

(** [int(x)] on ASCII text: an optional sign, then decimal digits with
    single underscores allowed between digits; [None] is [ValueError]. *)
Fixpoint int_digits (acc : Z) (after_digit : bool) (s : str) : option Z :=
  match s with
  | [] => if after_digit then Some acc else None
  | c :: s' =>
      if ((48 <=? c) && (c <=? 57))%N
      then int_digits (10 * acc + (Z.of_N c - 48)) true s'
      else if (c =? 95)%N && after_digit then int_digits acc false s'
      else None
  end.

Definition int_ascii (x : str) : option Z :=
  match x with
  | 43%N :: digits => int_digits 0 false digits
  | 45%N :: digits => option_map Z.opp (int_digits 0 false digits)
  | _ => int_digits 0 false x
  end.

(** ** The world the script runs in *)

(** One HTTP exchange per constructor; the identifier is the part of the
    URL the script fills in. *)
Inductive request :=
| GetDownload (track_id : str)
| GetAlbumMeta (album_id : str)
| GetAlbumTracks (album_id : str)
| GetPlaylistMeta (playlist_id : str)
| GetPlaylistTracks (playlist_id : str) (offset : json)
| GetAudio (tid : json).

(** A [requests.Response]: status, raw body, and the body parsed as JSON
    when it is JSON. *)
Record response := {
  status_code : Z;
  content : list N;
  body_json : option json
}.

Inductive reply :=
| NoResponse
| Responded (r : response).

(** The statuses [raise_for_status] raises on. *)
Definition http_error (resp : response) : bool :=
  (400 <=? status_code resp) && (status_code resp <? 600).

(** A reply on which fetching JSON raises [RequestException]: no response,
    an error status, or a body that is not JSON. *)
Definition json_reply_fails (r : reply) : bool :=
  match r with
  | NoResponse => true
  | Responded resp =>
      http_error resp || match body_json resp with Some _ => false | None => true end
  end.


(** The environment: the remote services (a reply for each request, given
    the requests made before it), the file-system calls that fail, and the
    interpreter's [int()] on a token ([None] is [ValueError]). *)
Record env := {
  server : list request -> request -> reply;
  open_fails : str -> bool;
  makedirs_fails : str -> bool;
  py_int : str -> option Z
}.

Inductive target := TrackMeta | AlbumMeta | PlaylistMeta | Download.
Inductive collection := Album | Playlist.

(** The lines the script prints. *)
Inductive msg :=
| MRetrying (what : target) (attempt max_retries : Z)
| MGaveUp (what : target) (max_retries : Z)
| MCollection (kind : collection) (name artists : json)
| MGettingSongs (kind : collection)
| MDownloading (trackname : str)
| MDownloaded
| MSkipped
| MFetchFailed (kind : collection)
| MTracksIn (kind : collection)
| MListItem (i : Z) (title artists : str)
| MUnableTrack
| MCompleted.

Inductive event :=
| Printed (m : msg)
| Slept (seconds : Z)
| Requested (r : request)
| Wrote (path : str)
| MadeDirs (path : str).

(** Files by path, and what has happened so far (oldest first). *)
Record world := {
  fs : gmap str (list N);
  trace : list event
}.

Definition requests_of (t : list event) : list request :=
  omap (fun e => match e with Requested r => Some r | _ => None end) t.

Definition printed_of (t : list event) : list msg :=
  omap (fun e => match e with Printed m => Some m | _ => None end) t.

(** The track names announced with [Downloading: ...], in order. *)
Definition downloading_of (t : list event) : list str :=
  omap (fun e => match e with Printed (MDownloading n) => Some n | _ => None end) t.

(** ** The monad of the script *)

Definition M (A : Type) : Type := world -> res A * world.

Definition ret {A} (a : A) : M A := fun w => (Ret a, w).

Definition raise {A} (e : exn) : M A := fun w => (Raise e, w).

Definition bind {A B} (m : M A) (k : A -> M B) : M B :=
  fun w =>
    match m w with
    | (Ret a, w') => k a w'
    | (Raise e, w') => (Raise e, w')
    | (OutOfFuel, w') => (OutOfFuel, w')
    end.

Definition lift {A} (r : res A) : M A := fun w => (r, w).

Notation "'do' x <- m ; k" := (bind m (fun x => k))
  (at level 10, x name, m at level 100, k at level 200).
Notation "'run' m ; k" := (bind m (fun _ => k))
  (at level 10, m at level 100, k at level 200).

(** The world after one more event. *)
Definition log (e : event) (w : world) : world :=
  {| fs := fs w; trace := trace w ++ [e] |}.

Definition emit (e : event) : M unit := fun w => (Ret tt, log e w).

Definition print (m : msg) : M unit := emit (Printed m).

Definition sleep (seconds : Z) : M unit := emit (Slept seconds).

(** The world after the notice and the two-second sleep that follow a
    failed attempt which is not the last. *)
Definition after_notice (what : target) (next max_retries : Z) (w : world)
    : world :=
  log (Slept 2) (log (Printed (MRetrying what next max_retries)) w).

(** [range(n)] *)
Definition py_range (n : Z) : list Z := map Z.of_nat (seq 0 (Z.to_nat n)).

(** ** The script *)

(** [@dataclass(frozen=True) class TrackMetadata].  The annotations are not
    enforced: [album] and [tid] hold whatever the service sent. *)
Record TrackMetadata := {
  title : str;
  artists : str;
  album : json;
  tid : json
}.

(** [link.split("/")[-1].split("?")[0]] *)
Definition resource_id (link : str) : str :=
  hd [] (split_on 63 [] (List.last (split_on 47 [] link) [])).

(** [os.path.join(a, b)] (POSIX) *)
Definition path_join (a b : str) : str :=
  if starts_with [47%N] b then b
  else match List.last (map Some a) None with
       | None => b
       | Some c => if (c =? 47)%N then a ++ b else a ++ [47%N] ++ b
       end.

(** What the two collection resolvers hand back: [(songs, name)],
    [(None, None)] once the attempts are used up, or the implicit [None]
    of a loop that never ran. *)
Inductive fetched :=
| Fetched (songs : list TrackMetadata) (name : json)
| NonePair
| NoValue.

(** [f"{track.title} - {track.artists}"] *)
Definition trackname_of (track : TrackMetadata) : str :=
  title track ++ cps " - " ++ artists track.

Section Script.

Variable E : env.

(** [requests.get(url, ...)]: the request is made, then the service
    replies or the transport fails. *)
Definition requests_get (r : request) : M response :=
  fun w =>
    match server E (requests_of (trace w)) r with
    | NoResponse => (Raise RequestException, log (Requested r) w)
    | Responded resp => (Ret resp, log (Requested r) w)
    end.

(** [response.raise_for_status()]: [HTTPError] for 4xx and 5xx. *)
Definition raise_for_status (resp : response) : M unit :=
  if http_error resp then raise RequestException else ret tt.

(** [response.json()]: [requests.JSONDecodeError] when the body is not
    JSON. *)
Definition response_json (resp : response) : M json :=
  match body_json resp with
  | Some j => ret j
  | None => raise RequestException
  end.

(** [os.path.exists(path)] *)
Definition path_exists (path : str) : M bool :=
  fun w => (Ret (bool_decide (is_Some (fs w !! path))), w).

(** [with open(path, "wb") as file: file.write(data)] *)
Definition write_file (path : str) (data : list N) : M unit :=
  fun w =>
    if open_fails E path then (Raise OSError, w)
    else (Ret tt, {| fs := <[path := data]> (fs w); trace := trace w ++ [Wrote path] |}).

(** [os.makedirs(path, exist_ok=True)] *)
Definition makedirs (path : str) : M unit :=
  if makedirs_fails E path then raise OSError else emit (MadeDirs path).

(** The retry loop the four network functions share:
[[
    for attempt in range(max_retries):
        try:
            <op>
        except requests.RequestException as e:
            if attempt < max_retries - 1:
                print(... Retrying... (Attempt {attempt + 2}/{max_retries}))
                time.sleep(2)
            else:
                print(... after {max_retries} attempts.)
                return <exhausted>
]]
    [op] is the body of the [try], which returns from the function when it
    does not raise; [fallthrough] is the implicit [None] after a loop over
    an empty range. *)
Fixpoint retry_loop {A} (what : target) (op : M A) (exhausted fallthrough : A)
    (max_retries : Z) (attempts : list Z) : M A :=
  match attempts with
  | [] => ret fallthrough
  | attempt :: rest =>
      fun w =>
        match op w with
        | (Raise RequestException, w1) =>
            if attempt <? max_retries - 1 then
              (run print (MRetrying what (attempt + 2) max_retries);
               run sleep 2;
               retry_loop what op exhausted fallthrough max_retries rest) w1
            else
              (run print (MGaveUp what max_retries);
               ret exhausted) w1
        | other => other
        end
  end.

(** The [try] body of [fetch_track_metadata]. *)
Definition track_attempt (track_id : str) : M json :=
  do response <- requests_get (GetDownload track_id);
  run raise_for_status response;
  response_json response.

(** [fetch_track_metadata]; Python's [None] is [JNull]. *)
Definition fetch_track_metadata (link : str) (max_retries : Z) : M json :=
  let track_id := resource_id link in
  retry_loop TrackMeta (track_attempt track_id)
    JNull JNull max_retries (py_range max_retries).

(** One [TrackMetadata(...)] of the album resolver. *)
Definition album_track (album_name track : json) : res TrackMetadata :=
  res_bind (py_getitem track (cps "title")) (fun t =>
  res_bind (normalize_value t) (fun t =>
  res_bind (py_getitem track (cps "artists")) (fun a =>
  res_bind (normalize_value a) (fun a =>
  res_bind (py_getitem track (cps "id")) (fun i =>
  Ret {| title := t; artists := a; album := album_name; tid := i |}))))).

(** The [try] body of [fetch_album_metadata]. *)
Definition album_attempt (album_id : str) : M fetched :=
  do response <- requests_get (GetAlbumMeta album_id);
  run raise_for_status response;
  do album_data <- response_json response;
  do album_name <- lift (py_getitem album_data (cps "title"));
  do by_whom <- lift (py_getitem album_data (cps "artists"));
  run print (MCollection Album album_name by_whom);
  run print (MGettingSongs Album);
  do response <- requests_get (GetAlbumTracks album_id);
  run raise_for_status response;
  do data <- response_json response;
  do track_list <- lift (py_getitem data (cps "trackList"));
  do tracks <- lift (py_iter track_list);
  do songs <- lift (res_mapM (album_track album_name) tracks);
  ret (Fetched songs album_name).

(** [fetch_album_metadata] *)
Definition fetch_album_metadata (link : str) (max_retries : Z) : M fetched :=
  let album_id := resource_id link in
  retry_loop AlbumMeta (album_attempt album_id)
    NonePair NoValue max_retries (py_range max_retries).

(** The [while True] loop of the playlist resolver, with the fuel that
    bounds the number of pages read. *)
Fixpoint fetch_pages (fuel : nat) (playlist_id : str) (track_list : list json)
    (next_offset : json) : M (list json) :=
  match fuel with
  | O => lift OutOfFuel
  | S fuel' =>
      do response <- requests_get (GetPlaylistTracks playlist_id next_offset);
      run raise_for_status response;
      do data <- response_json response;
      do page <- lift (py_getitem data (cps "trackList"));
      do items <- lift (py_iter page);
      let track_list := track_list ++ items in
      do next_offset <- lift (py_getitem data (cps "nextOffset"));
      if truthy next_offset
      then fetch_pages fuel' playlist_id track_list next_offset
      else ret track_list
  end.

(** One [TrackMetadata(...)] of the playlist resolver. *)
Definition playlist_track (track : json) : res TrackMetadata :=
  res_bind (py_getitem track (cps "title")) (fun t =>
  res_bind (normalize_value t) (fun t =>
  res_bind (py_getitem track (cps "artists")) (fun a =>
  res_bind (normalize_value a) (fun a =>
  res_bind (py_get track (cps "album") (JStr (cps "Unknown Album"))) (fun al =>
  res_bind (py_getitem track (cps "id")) (fun i =>
  Ret {| title := t; artists := a; album := al; tid := i |})))))).

(** The [try] body of [fetch_playlist_metadata]. *)
Definition playlist_attempt (fuel : nat) (playlist_id : str) : M fetched :=
  do response <- requests_get (GetPlaylistMeta playlist_id);
  run raise_for_status response;
  do playlist_data <- response_json response;
  do playlist_name <- lift (py_getitem playlist_data (cps "title"));
  do by_whom <- lift (py_getitem playlist_data (cps "artists"));
  run print (MCollection Playlist playlist_name by_whom);
  run print (MGettingSongs Playlist);
  do track_list <- fetch_pages fuel playlist_id [] (JNum 0);
  do songs <- lift (res_mapM playlist_track track_list);
  ret (Fetched songs playlist_name).

(** [fetch_playlist_metadata] *)
Definition fetch_playlist_metadata (fuel : nat) (link : str) (max_retries : Z)
    : M fetched :=
  let playlist_id := resource_id link in
  retry_loop PlaylistMeta (playlist_attempt fuel playlist_id)
    NonePair NoValue max_retries (py_range max_retries).

(** [persist_audio_file] *)
Definition persist_audio_file (trackname : str) (tid : json) (outpath : str)
    : M bool :=
  let trackname := normalize_filename trackname in
  do present <- path_exists (path_join outpath (trackname ++ cps ".mp3"));
  if present then ret false
  else
    do audio_response <- requests_get (GetAudio tid);
    run raise_for_status audio_response;
    if status_code audio_response =? 200 then
      run write_file (path_join outpath (trackname ++ cps ".mp3"))
                     (content audio_response);
      ret true
    else ret false.

(** The [try] body of [download_track]. *)
Definition download_attempt (trackname : str) (tid : json) (outpath : str)
    : M (option bool) :=
  do written <- persist_audio_file trackname tid outpath;
  if written then (run print MDownloaded; ret (Some true))
  else (run print MSkipped; ret (Some true)).

(** [download_track]; the result is [True], [False] or the implicit
    [None]. *)
Definition download_track (track : TrackMetadata) (outpath : str)
    (max_retries : Z) : M (option bool) :=
  let trackname := trackname_of track in
  run print (MDownloading trackname);
  retry_loop Download (download_attempt trackname (tid track) outpath)
    (Some false) None max_retries (py_range max_retries).

(** [for song in selected_songs: download_track(song, outpath)] *)
Fixpoint download_all (selected_songs : list TrackMetadata) (outpath : str)
    : M unit :=
  match selected_songs with
  | [] => ret tt
  | song :: rest =>
      run download_track song outpath 3;
      download_all rest outpath
  end.

(** [[int(x) - 1 for x in selection.split()]] *)
Definition parse_indices (selection : str) : res (list Z) :=
  res_mapM (fun x => match py_int E x with
                     | Some n => Ret (n - 1)
                     | None => Raise ValueError
                     end)
           (py_split selection).

(** [[songs[i] for i in indices if 0 <= i < len(songs)]] *)
Definition pick (songs : list TrackMetadata) (indices : list Z)
    : list TrackMetadata :=
  omap (fun i => if (0 <=? i) && (i <? Z.of_nat (length songs))
                 then songs !! Z.to_nat i else None)
       indices.

(** The selection step of the album and playlist branches of [main]. *)
Definition select_songs (songs : list TrackMetadata) (selection : str)
    : res (list TrackMetadata) :=
  match py_strip selection with
  | _ :: _ => res_bind (parse_indices selection) (fun indices => Ret (pick songs indices))
  | [] => Ret songs
  end.

(** [for i, song in enumerate(songs, 1): print(...)] *)
Fixpoint print_listing (i : Z) (songs : list TrackMetadata) : M unit :=
  match songs with
  | [] => ret tt
  | song :: rest =>
      run print (MListItem i (title song) (artists song));
      print_listing (i + 1) rest
  end.

(** The album and playlist branches of [main] after the resolver has
    returned; [selection] is what the second [input()] reads. *)
Definition main_collection (kind : collection) (r : fetched)
    (outpath selection : str) : M unit :=
  match r with
  | NoValue => raise TypeError
  | NonePair => print (MFetchFailed kind)
  | Fetched songs name =>
      run print (MTracksIn kind);
      run print_listing 1 songs;
      do selected_songs <- lift (select_songs songs selection);
      do folder <- lift (normalize_value name);
      let outpath := path_join outpath folder in
      run makedirs outpath;
      run download_all selected_songs outpath;
      print MCompleted
  end.

(** The single-track branch of [main]. *)
Definition main_track (outpath url : str) : M unit :=
  do resp <- fetch_track_metadata url 3;
  do failed <- lift (match resp with
                     | JNull => Ret true
                     | _ => res_bind (py_get resp (cps "success") JNull)
                              (fun s => Ret (eq_False s))
                     end);
  if (failed : bool) then print MUnableTrack
  else
    do track <- lift (
      res_bind (py_getitem resp (cps "metadata")) (fun m =>
      res_bind (py_getitem m (cps "title")) (fun t =>
      res_bind (normalize_value t) (fun t =>
      res_bind (py_getitem resp (cps "metadata")) (fun m =>
      res_bind (py_getitem m (cps "artists")) (fun a =>
      res_bind (normalize_value a) (fun a =>
      res_bind (py_getitem resp (cps "metadata")) (fun m =>
      res_bind (py_get m (cps "album") (JStr (cps "Unknown Album"))) (fun al =>
      res_bind (py_getitem resp (cps "metadata")) (fun m =>
      res_bind (py_getitem m (cps "id")) (fun i =>
      Ret {| title := t; artists := a; album := al; tid := i |})))))))))));
    run download_track track outpath 3;
    print MCompleted.

(** [main]: [cwd] is [os.getcwd()], [url] and [selection] are the lines the
    two [input()] calls read. *)
Definition main (fuel : nat) (cwd url selection : str) : M unit :=
  if py_contains (cps "album") url then
    do r <- fetch_album_metadata url 3;
    main_collection Album r cwd selection
  else if py_contains (cps "playlist") url then
    do r <- fetch_playlist_metadata fuel url 3;
    main_collection Playlist r cwd selection
  else main_track cwd url.

End Script.

(** ** Paginated sources *)

(** A page of a playlist as the service returns it: its items and the
    next offset. *)
Definition is_page (data : json) (items : list json) (next : json) : Prop :=
  (exists page, py_getitem data (cps "trackList") = Ret page /\
                py_iter page = Ret items) /\
  py_getitem data (cps "nextOffset") = Ret next.

(** The service answers the request for [offset], made after the requests
    [history], with the first page of [pages], and each further request
    with the next one; every next offset is truthy but the last. *)
Fixpoint serves (E : env) (playlist_id : str) (history : list request)
    (offset : json) (pages : list (list json * json)) : Prop :=
  match pages with
  | [] => False
  | (items, next) :: rest =>
      exists resp data,
        server E history (GetPlaylistTracks playlist_id offset) = Responded resp /\
        http_error resp = false /\
        body_json resp = Some data /\
        is_page data items next /\
        match rest with
        | [] => truthy next = false
        | _ :: _ =>
            truthy next = true /\
            serves E playlist_id
              (history ++ [GetPlaylistTracks playlist_id offset]) next rest
        end
  end.

(** The page requests a resolution of [pages] makes, starting at
    [offset]. *)
Fixpoint page_requests (playlist_id : str) (offset : json)
    (pages : list (list json * json)) : list request :=
  match pages with
  | [] => []
  | (_, next) :: rest =>
      GetPlaylistTracks playlist_id offset :: page_requests playlist_id next rest
  end.

(** ** Selections *)

(** The events of the numbered listing [main] prints. *)
Fixpoint listing (i : Z) (songs : list TrackMetadata) : list event :=
  match songs with
  | [] => []
  | song :: rest =>
      Printed (MListItem i (title song) (artists song)) :: listing (i + 1) rest
  end.

(** Empty or whitespace only. *)
Definition blank (s : str) : Prop := Forall (fun c => py_isspace c = true) s.

(** The tokens of [selection] read as the integers [numbers]. *)
Definition tokens_are (E : env) (selection : str) (numbers : list Z) : Prop :=
  Forall2 (fun x n => py_int E x = Some n) (py_split selection) numbers.

(** The selection the specification describes: one less than each number,
    the indices outside [0, len(items)) dropped, the items at the
    remaining indices in the order given. *)
Definition selected_by {T} (items : list T) (numbers : list Z) (result : list T)
    : Prop :=
  Forall2 (fun i x => items !! Z.to_nat i = Some x)
          (filter (fun i => 0 <= i < Z.of_nat (length items))
                  (map (fun n => n - 1) numbers))
          result.

(** ** Environments to run the script in *)

Definition empty_world : world := {| fs := ∅; trace := [] |}.

(** Services [srv] on a machine where every file-system call succeeds. *)
Definition env_of (srv : list request -> request -> reply) : env :=
  {| server := srv;
     open_fails := fun _ => false;
     makedirs_fails := fun _ => false;
     py_int := int_ascii |}.

Definition json_reply (status : Z) (j : json) : reply :=
  Responded {| status_code := status; content := []; body_json := Some j |}.

Definition audio_reply (status : Z) (data : list N) : reply :=
  Responded {| status_code := status; content := data; body_json := None |}.

Definition song (t a i : string) : TrackMetadata :=
  {| title := cps t; artists := cps a; album := JStr (cps "LP");
     tid := JStr (cps i) |}.

Definition five_songs : list TrackMetadata :=
  [song "One" "Band" "t1"; song "Two" "Band" "t2"; song "Three" "Band" "t3";
   song "Four" "Band" "t4"; song "Five" "Band" "t5"].

Definition track_json (t a i : string) : json :=
  JObj [(cps "title", JStr (cps t)); (cps "artists", JStr (cps a));
        (cps "id", JStr (cps i))].

(** No service answers. *)
Definition srv_down : list request -> request -> reply :=
  fun _ _ => NoResponse.

(** The first two requests fail, one with no answer and one with a 503;
    later ones succeed. *)
Definition srv_flaky : list request -> request -> reply :=
  fun history r =>
    match history with
    | [] => NoResponse
    | [_] => json_reply 503 JNull
    | _ =>
        match r with
        | GetAudio _ => audio_reply 200 [73; 68; 51]%N
        | _ => json_reply 200
                 (JObj [(cps "success", JBool true);
                        (cps "metadata", track_json "One" "Band" "t1")])
        end
    end.

(** The metadata service acknowledges that it has no such track. *)
Definition srv_not_found : list request -> request -> reply :=
  fun _ _ => json_reply 200 (JObj [(cps "success", JBool false)]).

(** The delivery endpoint answers 204 No Content. *)
Definition srv_no_content : list request -> request -> reply :=
  fun _ _ => audio_reply 204 [].

(** The delivery endpoint delivers. *)
Definition srv_audio : list request -> request -> reply :=
  fun _ _ => audio_reply 200 [73; 68; 51]%N.


(** An album of five tracks. *)
Definition srv_album : list request -> request -> reply :=
  fun _ r =>
    match r with
    | GetAlbumMeta _ =>
        json_reply 200 (JObj [(cps "title", JStr (cps "LP"));
                              (cps "artists", JStr (cps "Band"))])
    | GetAlbumTracks _ =>
        json_reply 200
          (JObj [(cps "trackList",
                  JArr [track_json "One" "Band" "t1"; track_json "Two" "Band" "t2";
                        track_json "Three" "Band" "t3"; track_json "Four" "Band" "t4";
                        track_json "Five" "Band" "t5"])])
    | GetAudio _ => audio_reply 200 [73; 68; 51]%N
    | _ => NoResponse
    end.

(** The [k]-th track of a playlist: its title is one letter-like code
    point, its id the number [k]. *)
Definition numbered_track (k : nat) : json :=
  JObj [(cps "title", JStr [N.of_nat (1000 + k)]);
        (cps "artists", JStr (cps "Band"));
        (cps "id", JNum (Z.of_nat k))].

Definition playlist_page (first count : nat) (next : json) : list json * json :=
  (map numbered_track (seq first count), next).

(** Three pages of 100, 100 and 20 tracks; the third has no next
    offset. *)
Definition three_pages : list (list json * json) :=
  [playlist_page 0 100 (JNum 100); playlist_page 100 100 (JNum 200);
   playlist_page 200 20 JNull].

Definition page_reply (p : list json * json) : reply :=
  json_reply 200 (JObj [(cps "trackList", JArr (fst p)); (cps "nextOffset", snd p)]).

Definition srv_playlist : list request -> request -> reply :=
  fun _ r =>
    match r with
    | GetPlaylistMeta _ =>
        json_reply 200 (JObj [(cps "title", JStr (cps "Mix"));
                              (cps "artists", JStr (cps "Someone"))])
    | GetPlaylistTracks _ (JNum 0) => page_reply (playlist_page 0 100 (JNum 100))
    | GetPlaylistTracks _ (JNum 100) => page_reply (playlist_page 100 100 (JNum 200))
    | GetPlaylistTracks _ (JNum 200) => page_reply (playlist_page 200 20 JNull)
    | _ => NoResponse
    end.

(** A world in which the first of the five songs has been saved under
    [/music]. *)
Definition world_with_file : world :=
  {| fs := {[ cps "/music/One - Band.mp3" := [1; 2; 3]%N ]}; trace := [] |}.

(** The tracks the three pages resolve to. *)
Definition numbered_song (k : nat) : TrackMetadata :=
  {| title := [N.of_nat (1000 + k)]; artists := cps "Band";
     album := JStr (cps "Unknown Album"); tid := JNum (Z.of_nat k) |}.

(** ** Further observations *)

(** The seconds slept, in order. *)
Definition slept_of (t : list event) : list Z :=
  omap (fun e => match e with Slept n => Some n | _ => None end) t.

(** The paths written, in order. *)
Definition wrote_of (t : list event) : list str :=
  omap (fun e => match e with Wrote p => Some p | _ => None end) t.

(** The service answers the request for [offset] with the first page of
    [pages], each further request with the next one, every next offset
    truthy, and fails on the request after the last of them. *)
Fixpoint breaks_after (E : env) (playlist_id : str) (history : list request)
    (offset : json) (pages : list (list json * json)) : Prop :=
  match pages with
  | [] =>
      json_reply_fails
        (server E history (GetPlaylistTracks playlist_id offset)) = true
  | (items, next) :: rest =>
      exists resp data,
        server E history (GetPlaylistTracks playlist_id offset) = Responded resp /\
        http_error resp = false /\
        body_json resp = Some data /\
        is_page data items next /\
        truthy next = true /\
        breaks_after E playlist_id
          (history ++ [GetPlaylistTracks playlist_id offset]) next rest
  end.

(** A playlist service whose every page names a next offset. *)
Definition srv_endless : list request -> request -> reply :=
  fun _ r =>
    match r with
    | GetPlaylistTracks _ _ => page_reply ([numbered_track 0], JNum 1)
    | _ => json_reply 200 (JObj [(cps "title", JStr (cps "Mix"));
                                 (cps "artists", JStr (cps "Someone"))])
    end.

(** A playlist service that serves one page and then fails. *)
Definition srv_one_page : list request -> request -> reply :=
  fun _ r =>
    match r with
    | GetPlaylistMeta _ =>
        json_reply 200 (JObj [(cps "title", JStr (cps "Mix"));
                              (cps "artists", JStr (cps "Someone"))])
    | GetPlaylistTracks _ (JNum 0) => page_reply ([numbered_track 0], JNum 1)
    | _ => NoResponse
    end.

(** An album service whose metadata has no title. *)
Definition srv_untitled : list request -> request -> reply :=
  fun _ _ => json_reply 200 (JObj [(cps "artists", JStr (cps "Band"))]).

(** A track service that answers without a [success] field. *)
Definition srv_plain : list request -> request -> reply :=
  fun _ r =>
    match r with
    | GetAudio _ => audio_reply 200 [73; 68; 51]%N
    | _ => json_reply 200 (JObj [(cps "metadata", track_json "One" "Band" "t1")])
    end.

(** * Theorems *)

Example normalize_ex1 :
  normalize_filename (cps "  AC/DC:  Back   In Black? ") = cps "ACDC Back In Black".
Proof. vm_compute. reflexivity. Qed.

(** ** Sanitizer *)

Section Sanitizer.

Lemma split_scan_wordlike s : forall cur,
  Forall (fun c => py_isspace c = false) cur ->
  Forall wordlike (split_scan cur s).
Proof.
  induction s as [|c s IH]; intros cur Hcur; simpl.
  - destruct cur as [|d cur]; constructor; [|constructor].
    split.
    + intros Hnil. apply (f_equal (@length N)) in Hnil.
      rewrite length_rev in Hnil. simpl in Hnil. lia.
    + apply Forall_rev. exact Hcur.
  - destruct (py_isspace c) eqn:Hc.
    + destruct cur as [|d cur].
      * apply IH. constructor.
      * constructor; [|apply IH; constructor].
        split.
        -- intros Hnil. apply (f_equal (@length N)) in Hnil.
           rewrite length_rev in Hnil. simpl in Hnil. lia.
        -- apply Forall_rev. exact Hcur.
    + apply IH. constructor; assumption.
Qed.

Lemma split_scan_Forall (P : N -> Prop) s : forall cur,
  Forall P s -> Forall P cur -> Forall (Forall P) (split_scan cur s).
Proof.
  induction s as [|c s IH]; intros cur Hs Hcur; simpl.
  - destruct cur; repeat constructor. apply Forall_rev. exact Hcur.
  - inversion Hs; subst.
    destruct (py_isspace c).
    + destruct cur.
      * apply IH; [assumption | constructor].
      * constructor; [apply Forall_rev; exact Hcur | apply IH; [assumption | constructor]].
    + apply IH; [assumption | constructor; assumption].
Qed.

Lemma split_scan_word w : forall cur rest,
  Forall (fun c => py_isspace c = false) w ->
  split_scan cur (w ++ rest) = split_scan (rev w ++ cur) rest.
Proof.
  induction w as [|c w IH]; intros cur rest Hw; simpl; [reflexivity|].
  inversion Hw as [|? ? Hc Hw']; subst. rewrite Hc.
  rewrite IH by assumption. rewrite <- app_assoc. reflexivity.
Qed.

Lemma split_join ws :
  Forall wordlike ws -> py_split (py_join [32%N] ws) = ws.
Proof.
  unfold py_split.
  induction ws as [|w ws IH]; intros Hws; [reflexivity|].
  inversion Hws as [|? ? [Hne Hw] Hws']; subst.
  destruct ws as [|w2 ws].
  - simpl. rewrite <- (app_nil_r w) at 1.
    rewrite split_scan_word by assumption. simpl.
    rewrite app_nil_r. destruct (rev w) eqn:Hr.
    + apply (f_equal (@rev N)) in Hr. rewrite rev_involutive in Hr. contradiction.
    + rewrite <- Hr, rev_involutive. reflexivity.
  - change (py_join [32%N] (w :: w2 :: ws))
      with (w ++ 32%N :: py_join [32%N] (w2 :: ws)).
    rewrite split_scan_word by assumption.
    rewrite app_nil_r.
    change (split_scan (rev w) (32%N :: py_join [32%N] (w2 :: ws)))
      with (match rev w with
            | [] => split_scan [] (py_join [32%N] (w2 :: ws))
            | _ => rev (rev w) :: split_scan [] (py_join [32%N] (w2 :: ws))
            end).
    destruct (rev w) eqn:Hr.
    + apply (f_equal (@rev N)) in Hr. rewrite rev_involutive in Hr. contradiction.
    + rewrite <- Hr, rev_involutive, IH by assumption. reflexivity.
Qed.

Lemma no_space_run_word w : forall t,
  Forall (fun c => py_isspace c = false) w ->
  no_space_run t -> no_space_run (w ++ t).
Proof.
  induction w as [|c w IH]; intros t Hw Ht; [exact Ht|].
  inversion Hw as [|? ? Hc Hw']; subst.
  specialize (IH t Hw' Ht).
  simpl. destruct (w ++ t) eqn:Hwt; [exact I|].
  split; [|exact IH].
  intros [Hc' _]. congruence.
Qed.

Lemma join_no_leading ws :
  Forall wordlike ws -> no_leading_space (py_join [32%N] ws).
Proof.
  intros Hws. destruct ws as [|w ws]; [exact I|].
  inversion Hws as [|? ? [Hne Hw] _]; subst.
  destruct w as [|c w]; [contradiction|].
  inversion Hw; subst.
  destruct ws; simpl; assumption.
Qed.

Lemma join_no_space_run ws :
  Forall wordlike ws -> no_space_run (py_join [32%N] ws).
Proof.
  induction ws as [|w ws IH]; intros Hws; [exact I|].
  inversion Hws as [|? ? [Hne Hw] Hws']; subst.
  destruct ws as [|w2 ws].
  - simpl. rewrite <- (app_nil_r w). apply no_space_run_word; [assumption | exact I].
  - change (py_join [32%N] (w :: w2 :: ws))
      with (w ++ 32%N :: py_join [32%N] (w2 :: ws)).
    apply no_space_run_word; [assumption|].
    pose proof (join_no_leading (w2 :: ws) Hws') as Hlead.
    specialize (IH Hws').
    destruct (py_join [32%N] (w2 :: ws)) as [|d t] eqn:Hj; [exact I|].
    split; [|exact IH].
    simpl in Hlead. intros [_ Hd]. congruence.
Qed.

Lemma no_leading_app a b :
  a <> [] -> no_leading_space a -> no_leading_space (a ++ b).
Proof. destruct a; [contradiction | intros _ H; exact H]. Qed.

Lemma join_nonempty w ws :
  Forall wordlike (w :: ws) -> py_join [32%N] (w :: ws) <> [].
Proof.
  intros Hws. inversion Hws as [|? ? [Hne _] _]; subst.
  destruct w; [contradiction|]. destruct ws; discriminate.
Qed.

Lemma join_no_trailing ws :
  Forall wordlike ws -> no_trailing_space (py_join [32%N] ws).
Proof.
  unfold no_trailing_space.
  induction ws as [|w ws IH]; intros Hws; [exact I|].
  inversion Hws as [|? ? [Hne Hw] Hws']; subst.
  destruct ws as [|w2 ws].
  - simpl. apply Forall_rev in Hw.
    destruct (rev w) eqn:Hr; [exact I|]. inversion Hw; assumption.
  - change (py_join [32%N] (w :: w2 :: ws))
      with (w ++ 32%N :: py_join [32%N] (w2 :: ws)).
    rewrite rev_app_distr. simpl. rewrite <- app_assoc.
    apply no_leading_app; [|apply IH; assumption].
    intros Hnil. apply (f_equal (@rev N)) in Hnil.
    rewrite rev_involutive in Hnil.
    exact (join_nonempty w2 ws Hws' Hnil).
Qed.

Lemma lstrip_id s : no_leading_space s -> py_lstrip s = s.
Proof. destruct s as [|c s]; simpl; [reflexivity|]. intros ->. reflexivity. Qed.

Lemma strip_id s :
  no_leading_space s -> no_trailing_space s -> py_strip s = s.
Proof.
  intros Hl Ht. unfold py_strip.
  rewrite (lstrip_id s Hl), (lstrip_id (rev s) Ht). apply rev_involutive.
Qed.

Lemma join_Forall (P : N -> Prop) ws :
  P 32%N -> Forall (Forall P) ws -> Forall P (py_join [32%N] ws).
Proof.
  intros Hsp. induction ws as [|w ws IH]; intros Hws; [constructor|].
  inversion Hws; subst.
  destruct ws as [|w2 ws]; [assumption|].
  change (py_join [32%N] (w :: w2 :: ws))
    with (w ++ 32%N :: py_join [32%N] (w2 :: ws)).
  apply Forall_app. split; [assumption|].
  constructor; [assumption | apply IH; assumption].
Qed.

Lemma strip_forbidden_no_forbidden s : no_forbidden (strip_forbidden s).
Proof.
  unfold no_forbidden, strip_forbidden.
  induction s as [|c s IH]; [constructor|].
  rewrite filter_cons. destruct (decide (is_forbidden c = false)); [|exact IH].
  constructor; assumption.
Qed.

Lemma strip_forbidden_id s : no_forbidden s -> strip_forbidden s = s.
Proof.
  unfold no_forbidden, strip_forbidden.
  induction 1 as [|c s Hc _ IH]; [reflexivity|].
  rewrite filter_cons_True by assumption. f_equal. exact IH.
Qed.

(** What [normalize_filename] returns: the words of the cleaned text,
    single-spaced. *)
Lemma normalize_filename_words s :
  normalize_filename s = py_join [32%N] (py_split (strip_forbidden s)) /\
  Forall wordlike (py_split (strip_forbidden s)).
Proof.
  assert (Hw : Forall wordlike (py_split (strip_forbidden s)))
    by (apply split_scan_wordlike; constructor).
  split; [|exact Hw].
  unfold normalize_filename.
  apply strip_id; [apply join_no_leading | apply join_no_trailing]; exact Hw.
Qed.

(** C6: for every string, the sanitized name has no forbidden character,
    no leading or trailing whitespace, and no two adjacent whitespace
    characters. *)
Theorem normalize_filename_clean (s : str) :
  no_forbidden (normalize_filename s) /\
  no_leading_space (normalize_filename s) /\
  no_trailing_space (normalize_filename s) /\
  no_space_run (normalize_filename s).
Proof.
  destruct (normalize_filename_words s) as [-> Hw].
  repeat split.
  - apply join_Forall; [reflexivity|].
    apply split_scan_Forall; [apply strip_forbidden_no_forbidden | constructor].
  - apply join_no_leading, Hw.
  - apply join_no_trailing, Hw.
  - apply join_no_space_run, Hw.
Qed.

(** C5: the sanitizer is idempotent. *)
Theorem normalize_filename_idempotent (x : str) :
  normalize_filename (normalize_filename x) = normalize_filename x.
Proof.
  destruct (normalize_filename_words x) as [Hx Hw].
  destruct (normalize_filename_words (normalize_filename x)) as [Hxx _].
  rewrite Hxx, Hx.
  rewrite strip_forbidden_id.
  - rewrite split_join by exact Hw. reflexivity.
  - apply join_Forall; [reflexivity|].
    apply split_scan_Forall; [apply strip_forbidden_no_forbidden | constructor].
Qed.

End Sanitizer.

(** ** Running the monad *)

Section Monad.

Context {A B : Type}.

Lemma bind_ret (m : M A) (k : A -> M B) w a w' :
  m w = (Ret a, w') -> bind m k w = k a w'.
Proof. unfold bind. intros ->. reflexivity. Qed.

Lemma bind_raise (m : M A) (k : A -> M B) w e w' :
  m w = (Raise e, w') -> bind m k w = (Raise e, w').
Proof. unfold bind. intros ->. reflexivity. Qed.

Lemma bind_out_of_fuel (m : M A) (k : A -> M B) w w' :
  m w = (OutOfFuel, w') -> bind m k w = (OutOfFuel, w').
Proof. unfold bind. intros ->. reflexivity. Qed.

End Monad.

Lemma requests_of_log_request r w :
  requests_of (trace (log (Requested r) w)) = requests_of (trace w) ++ [r].
Proof. unfold requests_of. simpl. rewrite omap_app. reflexivity. Qed.

Lemma requests_of_log_print m w :
  requests_of (trace (log (Printed m) w)) = requests_of (trace w).
Proof. unfold requests_of. simpl. rewrite omap_app. simpl. apply app_nil_r. Qed.

Lemma requests_of_log_sleep n w :
  requests_of (trace (log (Slept n) w)) = requests_of (trace w).
Proof. unfold requests_of. simpl. rewrite omap_app. simpl. apply app_nil_r. Qed.

(** ** The retry loop, one attempt at a time *)

Section RetryLoop.

Context {A : Type} (what : target) (op : M A) (exhausted fallthrough : A).
Variables (max_retries attempt : Z) (rest : list Z).

Lemma retry_loop_returns w v w1 :
  op w = (Ret v, w1) ->
  retry_loop what op exhausted fallthrough max_retries (attempt :: rest) w
  = (Ret v, w1).
Proof. simpl. intros ->. reflexivity. Qed.

Lemma retry_loop_propagates w e w1 :
  op w = (Raise e, w1) -> e <> RequestException ->
  retry_loop what op exhausted fallthrough max_retries (attempt :: rest) w
  = (Raise e, w1).
Proof. simpl. intros -> He. destruct e; congruence. Qed.

Lemma retry_loop_retries w w1 :
  op w = (Raise RequestException, w1) ->
  attempt < max_retries - 1 ->
  retry_loop what op exhausted fallthrough max_retries (attempt :: rest) w
  = retry_loop what op exhausted fallthrough max_retries rest
      (after_notice what (attempt + 2) max_retries w1).
Proof.
  simpl. intros -> Hlt.
  apply Z.ltb_lt in Hlt. rewrite Hlt. reflexivity.
Qed.

Lemma retry_loop_gives_up w w1 :
  op w = (Raise RequestException, w1) ->
  max_retries - 1 <= attempt ->
  retry_loop what op exhausted fallthrough max_retries (attempt :: rest) w
  = (Ret exhausted, log (Printed (MGaveUp what max_retries)) w1).
Proof.
  simpl. intros -> Hge.
  apply Z.ltb_ge in Hge. rewrite Hge. reflexivity.
Qed.

End RetryLoop.

Lemma py_range_pos n : 0 < n -> exists rest, py_range n = 0 :: rest.
Proof.
  intros Hn. unfold py_range.
  destruct (Z.to_nat n) eqn:Hk; [lia|].
  simpl. eauto.
Qed.

(** ** Persistence *)

Section Persist.

Variable E : env.

Lemma persist_existing trackname tid outpath w :
  is_Some (fs w !! path_join outpath (normalize_filename trackname ++ cps ".mp3")) ->
  persist_audio_file E trackname tid outpath w = (Ret false, w).
Proof.
  intros Hsome. unfold persist_audio_file, bind, path_exists.
  rewrite bool_decide_eq_true_2 by exact Hsome. reflexivity.
Qed.

(** C1: when the file with the sanitized target name already exists under
    the output directory, persisting the item is skipped: no request is
    made to the delivery endpoint and the file keeps its contents. *)
Theorem existing_file_skipped (track : TrackMetadata) (outpath : str)
    (max_retries : Z) (w : world) (data : list N) :
  let trackname := trackname_of track in
  let path := path_join outpath (normalize_filename trackname ++ cps ".mp3") in
  let w' := log (Printed MSkipped) (log (Printed (MDownloading trackname)) w) in
  0 < max_retries ->
  fs w !! path = Some data ->
  persist_audio_file E trackname (tid track) outpath w = (Ret false, w) /\
  download_track E track outpath max_retries w = (Ret (Some true), w') /\
  requests_of (trace w') = requests_of (trace w) /\
  fs w' = fs w /\
  fs w' !! path = Some data.
Proof.
  intros trackname path w' Hmax Hfile.
  split; [apply persist_existing; exists data; exact Hfile|].
  split.
  - unfold download_track. fold trackname.
    destruct (py_range_pos max_retries Hmax) as [rest ->].
    erewrite bind_ret by reflexivity.
    apply retry_loop_returns. unfold download_attempt.
    erewrite bind_ret by (apply persist_existing; exists data; exact Hfile).
    reflexivity.
  - subst w'. rewrite !requests_of_log_print. simpl. auto.
Qed.

End Persist.

(** ** Three attempts *)

Section ThreeAttempts.

Context {A : Type} (what : target) (op : M A) (exhausted fallthrough : A).

Lemma py_range_3 : py_range 3 = [0; 1; 2].
Proof. reflexivity. Qed.

(** Two failures, then whatever the third attempt does. *)
Lemma retry_loop_third w0 w1 w2 :
  op w0 = (Raise RequestException, w1) ->
  op (after_notice what 2 3 w1) = (Raise RequestException, w2) ->
  retry_loop what op exhausted fallthrough 3 (py_range 3) w0
  = retry_loop what op exhausted fallthrough 3 [2] (after_notice what 3 3 w2).
Proof.
  intros H1 H2. rewrite py_range_3.
  rewrite (retry_loop_retries _ _ _ _ _ _ _ _ _ H1) by lia.
  rewrite (retry_loop_retries _ _ _ _ _ _ _ _ _ H2) by lia.
  reflexivity.
Qed.


End ThreeAttempts.

(** ** Selection *)

Section Selection.

Variable E : env.

Lemma lstrip_no_leading s : no_leading_space (py_lstrip s).
Proof.
  induction s as [|c s IH]; simpl; [exact I|].
  destruct (py_isspace c) eqn:Hc; [exact IH | exact Hc].
Qed.

Lemma lstrip_blank s : blank s -> py_lstrip s = [].
Proof. induction 1 as [|c s Hc _ IH]; simpl; [|rewrite Hc]; auto. Qed.

Lemma lstrip_nil s : py_lstrip s = [] -> blank s.
Proof.
  induction s as [|c s IH]; simpl; [constructor|].
  destruct (py_isspace c) eqn:Hc; [|discriminate].
  intros H. constructor; [exact Hc | exact (IH H)].
Qed.

Lemma blank_no_leading s : blank s -> no_leading_space s -> s = [].
Proof.
  destruct s as [|c s]; [reflexivity|].
  intros Hb Hl. inversion Hb; subst. simpl in Hl. congruence.
Qed.

Lemma strip_nil_blank s : py_strip s = [] <-> blank s.
Proof.
  unfold py_strip. split.
  - intros H. apply (f_equal (@rev N)) in H. rewrite rev_involutive in H.
    simpl in H. apply lstrip_nil in H.
    apply Forall_rev in H. rewrite rev_involutive in H.
    apply lstrip_nil, blank_no_leading; [exact H | apply lstrip_no_leading].
  - intros H. rewrite (lstrip_blank s H). reflexivity.
Qed.

Lemma split_blank s : blank s -> py_split s = [].
Proof.
  unfold py_split. induction 1 as [|c s Hc _ IH]; simpl; [|rewrite Hc]; auto.
Qed.

Lemma parse_indices_numbers selection numbers :
  tokens_are E selection numbers ->
  parse_indices E selection = Ret (map (fun n => n - 1) numbers).
Proof.
  unfold tokens_are, parse_indices.
  induction 1 as [|x n xs ns Hx _ IH]; simpl; [reflexivity|].
  rewrite Hx. simpl. rewrite IH. reflexivity.
Qed.

Lemma parse_indices_bad_token selection t :
  In t (py_split selection) -> py_int E t = None ->
  parse_indices E selection = Raise ValueError.
Proof.
  unfold parse_indices. intros Hin Ht.
  induction (py_split selection) as [|x xs IH]; [destruct Hin|].
  simpl. destruct (py_int E x) eqn:Hx; [|reflexivity].
  simpl. destruct Hin as [-> | Hin]; [congruence|].
  rewrite (IH Hin). reflexivity.
Qed.

Lemma pick_selected songs indices :
  Forall2 (fun i x => songs !! Z.to_nat i = Some x)
    (filter (fun i => 0 <= i < Z.of_nat (length songs)) indices)
    (pick songs indices).
Proof.
  induction indices as [|i indices IH]; [constructor|].
  rewrite filter_cons. unfold pick in *. simpl.
  destruct (decide (0 <= i < Z.of_nat (length songs))) as [Hin | Hout].
  - assert (Hc : (0 <=? i) && (i <? Z.of_nat (length songs)) = true)
      by (apply andb_true_iff; split; [apply Z.leb_le | apply Z.ltb_lt]; lia).
    rewrite Hc.
    destruct (lookup_lt_is_Some_2 songs (Z.to_nat i)) as [x Hx]; [lia|].
    rewrite Hx. constructor; assumption.
  - assert (Hc : (0 <=? i) && (i <? Z.of_nat (length songs)) = false).
    { apply andb_false_iff.
      destruct (Z.leb_spec 0 i); [right; apply Z.ltb_ge; lia | left; reflexivity]. }
    rewrite Hc. exact IH.
Qed.

(** C4: a blank selection selects every item; otherwise the selection is
    the items at one less than each number given, those outside the list
    dropped, in the order given and with repetitions kept. *)
Theorem select_songs_correct (songs : list TrackMetadata) (selection : str)
    (numbers : list Z) :
  tokens_are E selection numbers ->
  exists result,
    select_songs E songs selection = Ret result /\
    (blank selection -> result = songs) /\
    (~ blank selection -> selected_by songs numbers result).
Proof.
  intros Htok. unfold select_songs.
  destruct (py_strip selection) as [|c s] eqn:Hstrip.
  - exists songs. split; [reflexivity|]. split; [reflexivity|].
    intros Hnb. exfalso. apply Hnb, strip_nil_blank, Hstrip.
  - exists (pick songs (map (fun n => n - 1) numbers)).
    rewrite (parse_indices_numbers _ _ Htok). split; [reflexivity|].
    split; [|intros _; apply pick_selected].
    intros Hb. apply strip_nil_blank in Hb. congruence.
Qed.

Lemma print_listing_trace songs : forall i w,
  print_listing i songs w
  = (Ret tt, {| fs := fs w; trace := trace w ++ listing i songs |}).
Proof.
  induction songs as [|song rest IH]; intros i w; simpl.
  - destruct w. unfold ret. simpl. rewrite app_nil_r. reflexivity.
  - erewrite bind_ret by reflexivity. rewrite IH. simpl.
    rewrite <- app_assoc. reflexivity.
Qed.

Lemma requests_of_listing songs : forall i, requests_of (listing i songs) = [].
Proof. induction songs as [|song rest IH]; intros i; simpl; auto. Qed.

Lemma downloading_of_listing songs : forall i, downloading_of (listing i songs) = [].
Proof. induction songs as [|song rest IH]; intros i; simpl; auto. Qed.

(** C10: when a token of a selection is not an integer, [int] raises
    [ValueError], nothing catches it, and the run ends after the listing:
    no directory is made, no request is sent, no download is started. *)
Theorem bad_token_aborts (kind : collection) (songs : list TrackMetadata)
    (name : json) (outpath selection t : str) (w : world) :
  In t (py_split selection) ->
  py_int E t = None ->
  let w' := {| fs := fs w;
               trace := trace w ++ Printed (MTracksIn kind) :: listing 1 songs |} in
  main_collection E kind (Fetched songs name) outpath selection w
  = (Raise ValueError, w') /\
  ~ blank selection /\
  requests_of (trace w') = requests_of (trace w) /\
  downloading_of (trace w') = downloading_of (trace w).
Proof.
  intros Hin Ht w'.
  assert (Hnb : ~ blank selection).
  { intros Hb. rewrite (split_blank _ Hb) in Hin. destruct Hin. }
  split; [|split; [exact Hnb|]].
  - unfold main_collection.
    erewrite bind_ret by reflexivity.
    erewrite bind_ret by apply print_listing_trace.
    unfold select_songs.
    destruct (py_strip selection) as [|c s] eqn:Hstrip.
    { exfalso. apply Hnb, strip_nil_blank, Hstrip. }
    rewrite (parse_indices_bad_token _ _ Hin Ht).
    erewrite bind_raise by reflexivity.
    subst w'. simpl. rewrite <- app_assoc. reflexivity.
  - subst w'. unfold requests_of, downloading_of. simpl.
    rewrite !omap_app. simpl.
    fold (requests_of (listing 1 songs)) (downloading_of (listing 1 songs)).
    rewrite requests_of_listing, downloading_of_listing, !app_nil_r. auto.
Qed.

End Selection.

(** ** Downloads *)



Section Download.

Variable E : env.

(** What [persist_audio_file] does when the file is not there yet, by the
    reply of the delivery endpoint. *)
Lemma persist_absent trackname tid outpath w :
  let path := path_join outpath (normalize_filename trackname ++ cps ".mp3") in
  let w1 := log (Requested (GetAudio tid)) w in
  fs w !! path = None ->
  persist_audio_file E trackname tid outpath w
  = match server E (requests_of (trace w)) (GetAudio tid) with
    | NoResponse => (Raise RequestException, w1)
    | Responded resp =>
        if http_error resp then (Raise RequestException, w1)
        else if status_code resp =? 200 then
          if open_fails E path then (Raise OSError, w1)
          else (Ret true, {| fs := <[path := content resp]> (fs w1);
                             trace := trace w1 ++ [Wrote path] |})
        else (Ret false, w1)
    end.
Proof.
  intros path w1 Hnone. unfold persist_audio_file, bind, path_exists.
  fold path. rewrite bool_decide_eq_false_2
    by (rewrite Hnone; intros [? ?]; discriminate).
  unfold requests_get. fold w1.
  destruct (server E (requests_of (trace w)) (GetAudio tid)) as [|resp];
    [reflexivity|].
  unfold raise_for_status. destruct (http_error resp); [reflexivity|].
  unfold ret. destruct (status_code resp =? 200); [|reflexivity].
  unfold write_file. destruct (open_fails E path); reflexivity.
Qed.


(** Any status that is neither 200 nor an error is reported as a skip. *)
Lemma download_attempt_other_status trackname tid outpath w resp :
  fs w !! path_join outpath (normalize_filename trackname ++ cps ".mp3") = None ->
  server E (requests_of (trace w)) (GetAudio tid) = Responded resp ->
  http_error resp = false ->
  status_code resp <> 200 ->
  download_attempt E trackname tid outpath w
  = (Ret (Some true), log (Printed MSkipped) (log (Requested (GetAudio tid)) w)).
Proof.
  intros Hnone Hsrv Herr Hst. unfold download_attempt.
  erewrite bind_ret.
  2:{ rewrite persist_absent by exact Hnone. rewrite Hsrv, Herr.
      apply Z.eqb_neq in Hst. rewrite Hst. reflexivity. }
  reflexivity.
Qed.

Hypothesis writable : forall path, open_fails E path = false.





End Download.

(** ** Track metadata *)

Section TrackMetadata.

Variable E : env.

Lemma track_attempt_fails track_id w :
  json_reply_fails (server E (requests_of (trace w)) (GetDownload track_id)) = true ->
  track_attempt E track_id w
  = (Raise RequestException, log (Requested (GetDownload track_id)) w).
Proof.
  intros Hfail. unfold track_attempt, bind, requests_get.
  destruct (server E (requests_of (trace w)) (GetDownload track_id)) as [|resp];
    [reflexivity|].
  simpl in Hfail. unfold raise_for_status, response_json.
  destruct (http_error resp); [reflexivity|].
  simpl in Hfail. destruct (body_json resp); [discriminate | reflexivity].
Qed.

Lemma track_attempt_returns track_id w resp j :
  server E (requests_of (trace w)) (GetDownload track_id) = Responded resp ->
  http_error resp = false ->
  body_json resp = Some j ->
  track_attempt E track_id w = (Ret j, log (Requested (GetDownload track_id)) w).
Proof.
  intros Hsrv Herr Hbody. unfold track_attempt, bind, requests_get.
  rewrite Hsrv. unfold raise_for_status, response_json.
  rewrite Herr. simpl. rewrite Hbody. reflexivity.
Qed.


(** Three failed metadata requests, of whatever kind. *)
Lemma fetch_track_metadata_exhausted link w :
  let r := GetDownload (resource_id link) in
  let h := requests_of (trace w) in
  json_reply_fails (server E h r) = true ->
  json_reply_fails (server E (h ++ [r]) r) = true ->
  json_reply_fails (server E (h ++ [r; r]) r) = true ->
  fetch_track_metadata E link 3 w
  = (Ret JNull,
     log (Printed (MGaveUp TrackMeta 3))
       (log (Requested r)
          (after_notice TrackMeta 3 3
             (log (Requested r)
                (after_notice TrackMeta 2 3 (log (Requested r) w)))))).
Proof.
  intros r h H1 H2 H3. unfold fetch_track_metadata. fold r.
  erewrite retry_loop_third.
  - apply retry_loop_gives_up; [|lia].
    apply track_attempt_fails. unfold after_notice.
    rewrite requests_of_log_sleep, requests_of_log_print, requests_of_log_request,
      requests_of_log_sleep, requests_of_log_print, requests_of_log_request.
    fold h r. rewrite <- app_assoc. exact H3.
  - apply track_attempt_fails. exact H1.
  - apply track_attempt_fails. unfold after_notice.
    rewrite requests_of_log_sleep, requests_of_log_print, requests_of_log_request.
    exact H2.
Qed.

(** C9, as the script has it: a metadata request that fails in transport,
    with an error status (a 404 among them) or with an unreadable body is
    retried, whatever the kind of failure, until the three attempts are
    used up, and then reported; an answer with status 200 that carries
    [success = false] is not retried: [main] reports it after the one
    request. *)
Theorem track_failures (cwd url : str) (w : world) :
  let r := GetDownload (resource_id url) in
  let h := requests_of (trace w) in
  (json_reply_fails (server E h r) = true ->
   json_reply_fails (server E (h ++ [r]) r) = true ->
   json_reply_fails (server E (h ++ [r; r]) r) = true ->
   main_track E cwd url w
   = (Ret tt,
      log (Printed MUnableTrack)
        (log (Printed (MGaveUp TrackMeta 3))
           (log (Requested r)
              (after_notice TrackMeta 3 3
                 (log (Requested r)
                    (after_notice TrackMeta 2 3 (log (Requested r) w)))))))) /\
  (forall resp kvs,
     server E h r = Responded resp ->
     http_error resp = false ->
     body_json resp = Some (JObj kvs) ->
     assoc (cps "success") kvs = Some (JBool false) ->
     main_track E cwd url w
     = (Ret tt, log (Printed MUnableTrack) (log (Requested r) w))).
Proof.
  intros r h. split.
  - intros H1 H2 H3. unfold main_track.
    erewrite bind_ret by (apply fetch_track_metadata_exhausted; assumption).
    reflexivity.
  - intros resp kvs Hsrv Herr Hbody Hsuccess. unfold main_track.
    erewrite bind_ret.
    2:{ unfold fetch_track_metadata. rewrite py_range_3.
        apply retry_loop_returns.
        apply (track_attempt_returns _ _ _ _ Hsrv Herr Hbody). }
    unfold lift, bind, py_get. rewrite Hsuccess. reflexivity.
Qed.

End TrackMetadata.

(** ** Playlist pagination *)

Lemma res_mapM_Forall2 {A B} (f : A -> res B) l : forall ys,
  res_mapM f l = Ret ys -> Forall2 (fun x y => f x = Ret y) l ys.
Proof.
  induction l as [|x l IH]; simpl; intros ys.
  - intros [= <-]. constructor.
  - destruct (f x) as [y| |] eqn:Hx; simpl; try discriminate.
    destruct (res_mapM f l) as [ys'| |]; simpl; try discriminate.
    intros [= <-]. constructor; [exact Hx | apply IH; reflexivity].
Qed.

Section Pagination.

Variable E : env.
Variable playlist_id : str.

(** The loop reads the pages the service serves, one request each, and
    stops after the page whose next offset is falsy. *)
Lemma fetch_pages_serves pages : forall fuel track_list offset w,
  serves E playlist_id (requests_of (trace w)) offset pages ->
  (length pages <= fuel)%nat ->
  fetch_pages E fuel playlist_id track_list offset w
  = (Ret (track_list ++ concat (map fst pages)),
     {| fs := fs w;
        trace := trace w ++ map Requested (page_requests playlist_id offset pages) |}).
Proof.
  induction pages as [|[items next] rest IH]; intros fuel track_list offset w Hsrv Hfuel;
    [destruct Hsrv|].
  destruct fuel as [|fuel]; [simpl in Hfuel; lia|].
  destruct Hsrv as (resp & data & Hreply & Herr & Hbody & [(page & Hpage & Hiter) Hnext] & Hrest).
  cbn [fetch_pages].
  erewrite bind_ret by (unfold requests_get; rewrite Hreply; reflexivity).
  erewrite bind_ret by (unfold raise_for_status; rewrite Herr; reflexivity).
  erewrite bind_ret by (unfold response_json; rewrite Hbody; reflexivity).
  erewrite bind_ret by (unfold lift; rewrite Hpage; reflexivity).
  erewrite bind_ret by (unfold lift; rewrite Hiter; reflexivity).
  erewrite bind_ret by (unfold lift; rewrite Hnext; reflexivity).
  destruct rest as [|page2 rest].
  - rewrite Hrest. unfold ret. simpl. rewrite app_nil_r. reflexivity.
  - destruct Hrest as [Htruthy Hrest]. rewrite Htruthy.
    rewrite IH.
    + cbn [map fst concat page_requests]. simpl fs. simpl trace.
      rewrite <- !app_assoc. reflexivity.
    + rewrite requests_of_log_request. exact Hrest.
    + simpl in Hfuel |- *. lia.
Qed.

End Pagination.

Section Playlist.

Variable E : env.

(** C3: resolving a playlist whose service serves [pages] asks for offset
    0, then for each next offset in turn, stops after the page whose next
    offset is falsy, and returns the tracks of all pages in the order they
    were fetched. *)
Theorem playlist_pages_in_order (fuel : nat) (link : str) (w : world)
    (resp : response) (meta name by_whom : json)
    (pages : list (list json * json)) (songs : list TrackMetadata) :
  let playlist_id := resource_id link in
  let h := requests_of (trace w) in
  server E h (GetPlaylistMeta playlist_id) = Responded resp ->
  http_error resp = false ->
  body_json resp = Some meta ->
  py_getitem meta (cps "title") = Ret name ->
  py_getitem meta (cps "artists") = Ret by_whom ->
  serves E playlist_id (h ++ [GetPlaylistMeta playlist_id]) (JNum 0) pages ->
  (length pages <= fuel)%nat ->
  res_mapM playlist_track (concat (map fst pages)) = Ret songs ->
  exists w',
    fetch_playlist_metadata E fuel link 3 w = (Ret (Fetched songs name), w') /\
    requests_of (trace w')
    = h ++ GetPlaylistMeta playlist_id :: page_requests playlist_id (JNum 0) pages /\
    Forall2 (fun track song => playlist_track track = Ret song)
            (concat (map fst pages)) songs /\
    length songs = length (concat (map fst pages)).
Proof.
  intros playlist_id h Hreply Herr Hbody Htitle Hby Hsrv Hfuel Hsongs.
  eexists. split; [|split; [|split]].
  - unfold fetch_playlist_metadata. fold playlist_id. rewrite py_range_3.
    apply retry_loop_returns. unfold playlist_attempt.
    erewrite bind_ret by (unfold requests_get; fold h; rewrite Hreply; reflexivity).
    erewrite bind_ret by (unfold raise_for_status; rewrite Herr; reflexivity).
    erewrite bind_ret by (unfold response_json; rewrite Hbody; reflexivity).
    erewrite bind_ret by (unfold lift; rewrite Htitle; reflexivity).
    erewrite bind_ret by (unfold lift; rewrite Hby; reflexivity).
    erewrite bind_ret by reflexivity.
    erewrite bind_ret by reflexivity.
    erewrite bind_ret.
    2:{ apply fetch_pages_serves; [|exact Hfuel].
        rewrite requests_of_log_print, requests_of_log_print, requests_of_log_request.
        exact Hsrv. }
    erewrite bind_ret by (unfold lift; simpl app; rewrite Hsongs; reflexivity).
    reflexivity.
  - unfold requests_of. simpl. rewrite !omap_app. simpl.
    rewrite <- !app_assoc. simpl. f_equal. f_equal.
    clear. generalize (JNum 0).
    induction pages as [|[items next] rest IH]; intros offset; simpl; [reflexivity|].
    f_equal. apply IH.
  - apply res_mapM_Forall2. exact Hsongs.
  - apply res_mapM_Forall2, Forall2_length in Hsongs. symmetry. exact Hsongs.
Qed.

End Playlist.

(** ** The theorems at work *)

Lemma existing_file_skipped_witness :
  let E := env_of srv_down in
  let track := song "One" "Band" "t1" in
  let path := cps "/music/One - Band.mp3" in
  0 < 3 /\
  fs world_with_file !! path = Some [1; 2; 3]%N /\
  persist_audio_file E (trackname_of track) (tid track) (cps "/music") world_with_file
  = (Ret false, world_with_file) /\
  (exists w',
     download_track E track (cps "/music") 3 world_with_file = (Ret (Some true), w') /\
     requests_of (trace w') = [] /\
     fs w' !! path = Some [1; 2; 3]%N).
Proof.
  intros E track path.
  assert (H0 : 0 < 3) by lia.
  assert (H1 : fs world_with_file
               !! path_join (cps "/music")
                    (normalize_filename (trackname_of track) ++ cps ".mp3")
               = Some [1; 2; 3]%N) by (vm_compute; reflexivity).
  destruct (existing_file_skipped E track (cps "/music") 3 world_with_file
              [1; 2; 3]%N H0 H1) as (Hp & Hd & Hr & _ & Hf).
  split; [exact H0|]. split; [exact H1|]. split; [exact Hp|].
  eexists. split; [exact Hd|]. split; [exact Hr | exact Hf].
Defined.


Lemma playlist_pages_in_order_witness :
  let E := env_of srv_playlist in
  let link := cps "https://open.spotify.com/playlist/xyz" in
  let songs := map numbered_song (seq 0 220) in
  serves E (cps "xyz") [GetPlaylistMeta (cps "xyz")] (JNum 0) three_pages /\
  res_mapM playlist_track (concat (map fst three_pages)) = Ret songs /\
  exists w',
    fetch_playlist_metadata E 3 link 3 empty_world
    = (Ret (Fetched songs (JStr (cps "Mix"))), w') /\
    requests_of (trace w')
    = [GetPlaylistMeta (cps "xyz");
       GetPlaylistTracks (cps "xyz") (JNum 0);
       GetPlaylistTracks (cps "xyz") (JNum 100);
       GetPlaylistTracks (cps "xyz") (JNum 200)] /\
    length songs = 220%nat.
Proof.
  intros E link songs.
  assert (Hserves : serves E (cps "xyz") [GetPlaylistMeta (cps "xyz")] (JNum 0)
                      three_pages).
  { unfold three_pages. cbn [serves].
    eexists _, _. split; [reflexivity|]. split; [reflexivity|].
    split; [reflexivity|].
    split; [split; [eexists; split; reflexivity | reflexivity]|].
    split; [reflexivity|].
    eexists _, _. split; [reflexivity|]. split; [reflexivity|].
    split; [reflexivity|].
    split; [split; [eexists; split; reflexivity | reflexivity]|].
    split; [reflexivity|].
    eexists _, _. split; [reflexivity|]. split; [reflexivity|].
    split; [reflexivity|].
    split; [split; [eexists; split; reflexivity | reflexivity]|].
    reflexivity. }
  assert (Hsongs : res_mapM playlist_track (concat (map fst three_pages)) = Ret songs)
    by (vm_compute; reflexivity).
  split; [exact Hserves|]. split; [exact Hsongs|].
  destruct (playlist_pages_in_order E 3 link empty_world
              {| status_code := 200; content := [];
                 body_json := Some (JObj [(cps "title", JStr (cps "Mix"));
                                          (cps "artists", JStr (cps "Someone"))]) |}
              _ (JStr (cps "Mix")) (JStr (cps "Someone")) three_pages songs
              eq_refl eq_refl eq_refl eq_refl eq_refl Hserves (le_n 3) Hsongs)
    as (w' & Hrun & Hreqs & _ & Hlen).
  exists w'. split; [exact Hrun|]. split; [exact Hreqs|].
  rewrite Hlen. vm_compute. reflexivity.
Defined.

Lemma select_songs_correct_witness :
  let E := env_of srv_down in
  tokens_are E (cps "3 1 3 9") [3; 1; 3; 9] /\
  exists result,
    select_songs E five_songs (cps "3 1 3 9") = Ret result /\
    selected_by five_songs [3; 1; 3; 9] result.
Proof.
  intros E.
  assert (Htok : tokens_are E (cps "3 1 3 9") [3; 1; 3; 9])
    by (unfold tokens_are; vm_compute py_split; repeat constructor).
  split; [exact Htok|].
  destruct (select_songs_correct E five_songs (cps "3 1 3 9") [3; 1; 3; 9] Htok)
    as (result & Hrun & _ & Hsel).
  exists result. split; [exact Hrun|].
  apply Hsel. intros Hb. inversion Hb as [|? ? Hc _]. discriminate Hc.
Defined.



(** C8 at a 204 answer: the file is not there, nothing is written, and
    [download_track] returns [True] after printing that the file was
    skipped because it already exists. *)
Theorem no_content_reported_as_skipped :
  let track := song "One" "Band" "t1" in
  download_track (env_of srv_no_content) track (cps "/music") 3 empty_world
  = (Ret (Some true),
     log (Printed MSkipped)
       (log (Requested (GetAudio (tid track)))
          (log (Printed (MDownloading (cps "One - Band"))) empty_world))) /\
  fs empty_world !! cps "/music/One - Band.mp3" = None.
Proof. split; vm_compute; reflexivity. Qed.

Lemma track_failures_witness :
  let url := cps "https://open.spotify.com/track/abc" in
  let r := GetDownload (cps "abc") in
  (exists w',
     main_track (env_of srv_down) (cps "/music") url empty_world = (Ret tt, w') /\
     requests_of (trace w') = [r; r; r]) /\
  main_track (env_of srv_not_found) (cps "/music") url empty_world
  = (Ret tt, log (Printed MUnableTrack) (log (Requested r) empty_world)).
Proof.
  intros url r. split.
  - destruct (track_failures (env_of srv_down) (cps "/music") url empty_world)
      as [Hfail _].
    eexists. split; [apply Hfail; reflexivity | reflexivity].
  - destruct (track_failures (env_of srv_not_found) (cps "/music") url empty_world)
      as [_ Hack].
    eapply Hack; reflexivity.
Defined.

(** C9 does not hold for an acknowledgement with status 200: an answer
    with [success = false] is reported as a failure after a single
    request, not after three. *)
Lemma not_found_is_not_retried :
  let outcome := main (env_of srv_not_found) 0 (cps "/music")
                   (cps "https://open.spotify.com/track/abc") [] empty_world in
  fst outcome = Ret tt /\
  trace (snd outcome)
  = [Requested (GetDownload (cps "abc")); Printed MUnableTrack] /\
  length (requests_of (trace (snd outcome))) <> 3%nat.
Proof. vm_compute. repeat split; discriminate. Qed.

Lemma bad_token_aborts_witness :
  let E := env_of srv_album in
  In (cps "a") (py_split (cps "1 a")) /\
  py_int E (cps "a") = None /\
  exists w',
    main_collection E Album (Fetched five_songs (JStr (cps "LP"))) (cps "/music") (cps "1 a") empty_world
    = (Raise ValueError, w') /\
    requests_of (trace w') = [] /\
    downloading_of (trace w') = [].
Proof.
  intros E.
  assert (Hin : In (cps "a") (py_split (cps "1 a"))) by (right; left; reflexivity).
  assert (Hint : py_int E (cps "a") = None) by reflexivity.
  split; [exact Hin|]. split; [exact Hint|].
  destruct (bad_token_aborts E Album five_songs (JStr (cps "LP")) (cps "/music")
              (cps "1 a") (cps "a") empty_world Hin Hint)
    as (Hrun & _ & Hreq & Hdl).
  eexists. split; [exact Hrun|]. split; [exact Hreq | exact Hdl].
Defined.

(** The whole run on an album link with the selection [1 a]: the two
    metadata requests, the listing, then [ValueError]. *)
Example main_bad_selection :
  let outcome := main (env_of srv_album) 0 (cps "/music")
                   (cps "https://open.spotify.com/album/xyz") (cps "1 a")
                   empty_world in
  fst outcome = Raise ValueError /\
  requests_of (trace (snd outcome))
  = [GetAlbumMeta (cps "xyz"); GetAlbumTracks (cps "xyz")] /\
  downloading_of (trace (snd outcome)) = [] /\
  fs (snd outcome) = ∅.
Proof. vm_compute. auto. Qed.

(** The selections of the specification's examples. *)
Example select_1_3 :
  select_songs (env_of srv_down) five_songs (cps "1 3")
  = Ret [song "One" "Band" "t1"; song "Three" "Band" "t3"].
Proof. vm_compute. reflexivity. Qed.

Example select_all :
  select_songs (env_of srv_down) five_songs (cps "  ") = Ret five_songs.
Proof. vm_compute. reflexivity. Qed.

Example select_0_2_9 :
  select_songs (env_of srv_down) five_songs (cps "0 2 9")
  = Ret [song "Two" "Band" "t2"].
Proof. vm_compute. reflexivity. Qed.

Example select_repeated :
  select_songs (env_of srv_down) five_songs (cps "3 1 3 9")
  = Ret [song "Three" "Band" "t3"; song "One" "Band" "t1"; song "Three" "Band" "t3"].
Proof. vm_compute. reflexivity. Qed.

(** An album link with the selection [2 4]: the second and the fourth
    track are downloaded, in that order, into the album's directory. *)
Example main_album_2_4 :
  let outcome := main (env_of srv_album) 0 (cps "/music")
                   (cps "https://open.spotify.com/album/xyz") (cps "2 4")
                   empty_world in
  fst outcome = Ret tt /\
  downloading_of (trace (snd outcome)) = [cps "Two - Band"; cps "Four - Band"] /\
  map fst (map_to_list (fs (snd outcome)))
  ≡ₚ [cps "/music/LP/Two - Band.mp3"; cps "/music/LP/Four - Band.mp3"].
Proof.
  vm_compute. repeat split.
  first [reflexivity | apply Permutation_swap].
Qed.

(** [download_track] against a delivery endpoint that fails twice: the
    third attempt writes the file. *)
Example download_third_attempt :
  let outcome := download_track (env_of srv_flaky) (song "One" "Band" "t1")
                   (cps "/music") 3 empty_world in
  let r := GetAudio (JStr (cps "t1")) in
  fst outcome = Ret (Some true) /\
  requests_of (trace (snd outcome)) = [r; r; r] /\
  printed_of (trace (snd outcome))
  = [MDownloading (cps "One - Band"); MRetrying Download 2 3;
     MRetrying Download 3 3; MDownloaded] /\
  fs (snd outcome) !! cps "/music/One - Band.mp3" = Some [73; 68; 51]%N.
Proof. vm_compute. auto. Qed.

(** [download_track] against a delivery endpoint that is down: three
    requests, then the failure is reported. *)
Example download_gives_up :
  let outcome := download_track (env_of srv_down) (song "One" "Band" "t1")
                   (cps "/music") 3 empty_world in
  let r := GetAudio (JStr (cps "t1")) in
  fst outcome = Ret (Some false) /\
  requests_of (trace (snd outcome)) = [r; r; r] /\
  printed_of (trace (snd outcome))
  = [MDownloading (cps "One - Band"); MRetrying Download 2 3;
     MRetrying Download 3 3; MGaveUp Download 3] /\
  fs (snd outcome) = ∅.
Proof. vm_compute. auto. Qed.

(** * More of the script *)

(** ** Resource identifiers *)

Section ResourceId.

Lemma split_on_Forall (P : N -> Prop) sep s : forall cur,
  Forall P s -> Forall P cur -> Forall (Forall P) (split_on sep cur s).
Proof.
  induction s as [|c s IH]; intros cur Hs Hcur; simpl.
  - repeat constructor. apply Forall_rev. exact Hcur.
  - inversion Hs; subst. destruct (c =? sep)%N.
    + constructor; [apply Forall_rev; exact Hcur | apply IH; [assumption | constructor]].
    + apply IH; [assumption | constructor; assumption].
Qed.

(** The pieces of a split do not contain the separator. *)
Lemma split_on_no_sep sep s : forall cur,
  Forall (fun c => c <> sep) cur ->
  Forall (Forall (fun c => c <> sep)) (split_on sep cur s).
Proof.
  induction s as [|c s IH]; intros cur Hcur; simpl.
  - repeat constructor. apply Forall_rev. exact Hcur.
  - destruct (N.eqb_spec c sep) as [-> | Hne].
    + constructor; [apply Forall_rev; exact Hcur | apply IH; constructor].
    + apply IH. constructor; assumption.
Qed.

Lemma split_on_nonempty sep s : forall cur, split_on sep cur s <> [].
Proof.
  induction s as [|c s IH]; intros cur; simpl; [discriminate|].
  destruct (c =? sep)%N; [discriminate | apply IH].
Qed.

Lemma last_Forall {A} (P : A -> Prop) (l : list A) d :
  Forall P l -> P d -> P (List.last l d).
Proof.
  induction 1 as [|x l Hx Hl IH]; intros Hd; [exact Hd|].
  destruct l; [exact Hx | apply IH; exact Hd].
Qed.

Lemma hd_Forall {A} (P : A -> Prop) (l : list A) d :
  Forall P l -> P d -> P (hd d l).
Proof. destruct 1; auto. Qed.

(** X1: the identifier cut out of a link contains neither a slash nor a
    question mark. *)
Theorem resource_id_clean (link : str) :
  Forall (fun c => c <> 47%N /\ c <> 63%N) (resource_id link).
Proof.
  unfold resource_id.
  set (segment := List.last (split_on 47 [] link) []).
  assert (Hseg : Forall (fun c => c <> 47%N) segment)
    by (apply last_Forall; [apply split_on_no_sep|]; constructor).
  apply Forall_and. split.
  - apply hd_Forall; [|constructor].
    apply split_on_Forall; [exact Hseg | constructor].
  - apply hd_Forall; [|constructor].
    apply split_on_no_sep. constructor.
Qed.

Lemma split_on_piece sep a : forall cur rest,
  Forall (fun c => c <> sep) a ->
  split_on sep cur (a ++ rest) = split_on sep (rev a ++ cur) rest.
Proof.
  induction a as [|c a IH]; intros cur rest Ha; simpl; [reflexivity|].
  inversion Ha as [|? ? Hc Ha']; subst.
  apply N.eqb_neq in Hc. rewrite Hc.
  rewrite IH by assumption. rewrite <- app_assoc. reflexivity.
Qed.

Lemma last_cons_nonempty {A} (x : A) l d : l <> [] -> List.last (x :: l) d = List.last l d.
Proof. destruct l; [contradiction | reflexivity]. Qed.

Lemma last_split_on sep rest base : forall cur,
  List.last (split_on sep cur (base ++ sep :: rest)) []
  = List.last (split_on sep [] rest) [].
Proof.
  induction base as [|c base IH]; intros cur; simpl.
  - rewrite N.eqb_refl. apply last_cons_nonempty, split_on_nonempty.
  - destruct (c =? sep)%N; [|apply IH].
    rewrite last_cons_nonempty by apply split_on_nonempty. apply IH.
Qed.

Lemma split_on_whole sep s :
  Forall (fun c => c <> sep) s -> split_on sep [] s = [s].
Proof.
  intros Hs. rewrite <- (app_nil_r s) at 1.
  rewrite split_on_piece by exact Hs. simpl.
  rewrite app_nil_r, rev_involutive. reflexivity.
Qed.

(** X2: for a link that ends in a slash, an identifier and possibly a
    question mark and a query, the identifier is what is cut out, provided
    the identifier has neither character and the query has no slash. *)
Theorem resource_id_of_link (base id : str) (query : option str) :
  Forall (fun c => c <> 47%N /\ c <> 63%N) id ->
  Forall (fun c => c <> 47%N) (default [] query) ->
  resource_id
    (base ++ 47%N :: id ++ match query with Some q => 63%N :: q | None => [] end)
  = id.
Proof.
  intros Hid Hq. apply Forall_and in Hid as [Hid47 Hid63].
  unfold resource_id. rewrite last_split_on.
  rewrite (split_on_whole 47).
  - simpl. destruct query as [q|].
    + rewrite split_on_piece by exact Hid63. simpl.
      rewrite app_nil_r. apply rev_involutive.
    + rewrite app_nil_r, split_on_whole by exact Hid63. reflexivity.
  - apply Forall_app. split; [exact Hid47|].
    destruct query as [q|]; [|constructor].
    constructor; [discriminate | exact Hq].
Qed.

End ResourceId.

Lemma resource_id_of_link_witness :
  Forall (fun c => c <> 47%N /\ c <> 63%N) (cps "4uLU6hMCjMI75M1A2tKUQC") /\
  resource_id (cps "https://open.spotify.com/track/4uLU6hMCjMI75M1A2tKUQC?si=abc")
  = cps "4uLU6hMCjMI75M1A2tKUQC".
Proof.
  assert (Hid : Forall (fun c => c <> 47%N /\ c <> 63%N) (cps "4uLU6hMCjMI75M1A2tKUQC"))
    by (repeat constructor; discriminate).
  assert (Hq : Forall (fun c => c <> 47%N) (default [] (Some (cps "si=abc"))))
    by (repeat constructor; discriminate).
  split; [exact Hid|].
  exact (resource_id_of_link (cps "https://open.spotify.com/track")
           (cps "4uLU6hMCjMI75M1A2tKUQC") (Some (cps "si=abc")) Hid Hq).
Defined.

(** ** More on the sanitizer *)

Section SanitizerMore.

Lemma concat_split_scan s : forall cur,
  concat (split_scan cur s) = rev cur ++ filter (fun c => py_isspace c = false) s.
Proof.
  induction s as [|c s IH]; intros cur; simpl.
  - destruct cur; simpl; rewrite ?app_nil_r; reflexivity.
  - rewrite filter_cons. destruct (py_isspace c) eqn:Hc.
    + destruct (decide (true = false)) as [Hd|_]; [discriminate|].
      destruct cur as [|d cur]; [apply IH|].
      simpl. rewrite IH. reflexivity.
    + destruct (decide (false = false)) as [_|Hd]; [|contradiction].
      rewrite IH. simpl. rewrite <- app_assoc. reflexivity.
Qed.

Lemma filter_nonspace_word w :
  Forall (fun c => py_isspace c = false) w ->
  filter (fun c => py_isspace c = false) w = w.
Proof.
  induction 1 as [|c w Hc _ IH]; [reflexivity|].
  rewrite filter_cons_True by exact Hc. f_equal. exact IH.
Qed.

Lemma filter_nonspace_join ws :
  Forall wordlike ws ->
  filter (fun c => py_isspace c = false) (py_join [32%N] ws) = concat ws.
Proof.
  induction ws as [|w ws IH]; intros Hws; [reflexivity|].
  inversion Hws as [|? ? [_ Hw] Hws']; subst.
  destruct ws as [|w2 ws].
  - simpl. rewrite app_nil_r. apply filter_nonspace_word, Hw.
  - change (py_join [32%N] (w :: w2 :: ws))
      with (w ++ 32%N :: py_join [32%N] (w2 :: ws)).
    rewrite filter_app, filter_nonspace_word by exact Hw.
    rewrite filter_cons_False by (simpl; discriminate).
    rewrite IH by exact Hws'. reflexivity.
Qed.

Lemma filter_nonspace_normalize s :
  filter (fun c => py_isspace c = false) (normalize_filename s)
  = filter (fun c => py_isspace c = false /\ is_forbidden c = false) s.
Proof.
  destruct (normalize_filename_words s) as [-> Hw].
  rewrite filter_nonspace_join by exact Hw.
  unfold py_split. rewrite concat_split_scan. simpl.
  unfold strip_forbidden. apply list_filter_filter.
Qed.

(** X3: the sanitizer removes forbidden characters and whitespace (putting
    single spaces between the words that remain) and nothing else: the
    other characters of the name are all kept, in their order, and every
    whitespace character left is a space. *)
Theorem normalize_filename_keeps (s : str) :
  filter (fun c => py_isspace c = false) (normalize_filename s)
  = filter (fun c => py_isspace c = false /\ is_forbidden c = false) s /\
  Forall (fun c => py_isspace c = true -> c = 32%N) (normalize_filename s).
Proof.
  split; [apply filter_nonspace_normalize|].
  destruct (normalize_filename_words s) as [-> Hw].
  apply join_Forall; [reflexivity|].
  eapply Forall_impl; [exact Hw|].
  intros w [_ Hns]. eapply Forall_impl; [exact Hns|].
  intros c Hc Hsp. congruence.
Qed.

Lemma filter_nil_Forall {A} (P : A -> Prop) `{forall x, Decision (P x)} l :
  filter P l = [] -> Forall (fun x => ~ P x) l.
Proof.
  induction l as [|x l IH]; [constructor|].
  rewrite filter_cons. destruct (decide (P x)); [discriminate|].
  intros Hnil. constructor; auto.
Qed.

Lemma Forall_not_filter_nil {A} (P : A -> Prop) `{forall x, Decision (P x)} l :
  Forall (fun x => ~ P x) l -> filter P l = [].
Proof.
  induction 1 as [|x l Hx _ IH]; [reflexivity|].
  rewrite filter_cons_False by exact Hx. exact IH.
Qed.

Lemma concat_wordlike_nil ws : Forall wordlike ws -> concat ws = [] -> ws = [].
Proof.
  destruct 1 as [|w ws [Hne _] _]; [reflexivity|].
  simpl. destruct w; [contradiction | discriminate].
Qed.

(** X4: a name is sanitized to the empty string exactly when each of its
    characters is forbidden or whitespace. *)
Theorem normalize_filename_empty (s : str) :
  normalize_filename s = []
  <-> Forall (fun c => is_forbidden c = true \/ py_isspace c = true) s.
Proof.
  split.
  - intros Hnil. pose proof (filter_nonspace_normalize s) as Hk.
    rewrite Hnil in Hk. symmetry in Hk. apply filter_nil_Forall in Hk.
    eapply Forall_impl; [exact Hk|]. intros c Hc. simpl in Hc.
    destruct (is_forbidden c), (py_isspace c); auto.
  - intros Hall.
    destruct (normalize_filename_words s) as [-> Hw].
    rewrite (concat_wordlike_nil _ Hw); [reflexivity|].
    unfold py_split. rewrite concat_split_scan. simpl.
    unfold strip_forbidden. rewrite list_filter_filter.
    apply Forall_not_filter_nil.
    eapply Forall_impl; [exact Hall|]. intros c [Hc | Hc] [H1 H2]; congruence.
Qed.

(** Single-spaced clean words are left as they are. *)
Lemma normalize_filename_join ws :
  Forall wordlike ws -> Forall no_forbidden ws ->
  normalize_filename (py_join [32%N] ws) = py_join [32%N] ws.
Proof.
  intros Hw Hf. unfold normalize_filename.
  rewrite strip_forbidden_id by (apply join_Forall; [reflexivity | exact Hf]).
  rewrite split_join by exact Hw.
  apply strip_id; [apply join_no_leading | apply join_no_trailing]; exact Hw.
Qed.

(** A sanitized name as single-spaced clean words. *)
Lemma normalize_filename_as_words s :
  exists ws, Forall wordlike ws /\ Forall no_forbidden ws /\
             normalize_filename s = py_join [32%N] ws.
Proof.
  exists (py_split (strip_forbidden s)).
  destruct (normalize_filename_words s) as [Heq Hw].
  split; [exact Hw|]. split; [|exact Heq].
  apply split_scan_Forall; [apply strip_forbidden_no_forbidden | constructor].
Qed.

Lemma normalize_filename_fixed s :
  normalize_filename (normalize_filename s) = normalize_filename s.
Proof.
  destruct (normalize_filename_as_words s) as (ws & Hw & Hf & ->).
  apply normalize_filename_join; assumption.
Qed.

Lemma join_app ws1 : forall ws2,
  ws1 <> [] -> ws2 <> [] ->
  py_join [32%N] (ws1 ++ ws2) = py_join [32%N] ws1 ++ 32%N :: py_join [32%N] ws2.
Proof.
  induction ws1 as [|w ws1 IH]; intros ws2 H1 H2; [contradiction|].
  destruct ws1 as [|w' ws1].
  - destruct ws2; [contradiction | reflexivity].
  - change (py_join [32%N] ((w :: w' :: ws1) ++ ws2))
      with (w ++ 32%N :: py_join [32%N] ((w' :: ws1) ++ ws2)).
    rewrite IH by (discriminate || assumption).
    change (py_join [32%N] (w :: w' :: ws1))
      with (w ++ 32%N :: py_join [32%N] (w' :: ws1)).
    rewrite <- app_assoc. reflexivity.
Qed.

(** X5: for a sanitized title and sanitized artists, neither empty, the
    name [title - artists] is already sanitized: [persist_audio_file]
    names the file exactly as [download_track] announces it. *)
Theorem trackname_already_normalized (t a : str) :
  normalize_filename t <> [] ->
  normalize_filename a <> [] ->
  normalize_filename (normalize_filename t ++ cps " - " ++ normalize_filename a)
  = normalize_filename t ++ cps " - " ++ normalize_filename a.
Proof.
  destruct (normalize_filename_as_words t) as (ws1 & Hw1 & Hf1 & ->).
  destruct (normalize_filename_as_words a) as (ws2 & Hw2 & Hf2 & ->).
  intros Ht Ha.
  assert (H1 : ws1 <> []) by (intros ->; apply Ht; reflexivity).
  assert (H2 : ws2 <> []) by (intros ->; apply Ha; reflexivity).
  assert (Heq : py_join [32%N] ws1 ++ cps " - " ++ py_join [32%N] ws2
                = py_join [32%N] (ws1 ++ [45%N] :: ws2)).
  { rewrite join_app by (assumption || discriminate).
    destruct ws2; [contradiction | reflexivity]. }
  rewrite Heq. apply normalize_filename_join.
  - apply Forall_app. split; [exact Hw1|]. constructor; [|exact Hw2].
    split; [discriminate | repeat constructor].
  - apply Forall_app. split; [exact Hf1|]. constructor; [|exact Hf2].
    repeat constructor.
Qed.

End SanitizerMore.

Lemma trackname_already_normalized_witness :
  normalize_filename (cps "AC/DC: Back") <> [] /\
  normalize_filename (cps " The  Band ") <> [] /\
  normalize_filename (cps "ACDC Back - The Band") = cps "ACDC Back - The Band".
Proof.
  assert (Ht : normalize_filename (cps "AC/DC: Back") <> []) by discriminate.
  assert (Ha : normalize_filename (cps " The  Band ") <> []) by discriminate.
  split; [exact Ht|]. split; [exact Ha|].
  exact (trackname_already_normalized (cps "AC/DC: Back") (cps " The  Band ") Ht Ha).
Defined.

(** ** Track descriptors *)

Lemma res_bind_Ret {A B} (r : res A) (k : A -> res B) y :
  res_bind r k = Ret y -> exists x, r = Ret x /\ k x = Ret y.
Proof. destruct r as [x| |]; simpl; [eauto | discriminate | discriminate]. Qed.

Lemma normalize_value_fixed v s :
  normalize_value v = Ret s -> normalize_filename s = s.
Proof.
  destruct v; simpl; try discriminate.
  intros [= <-]. apply normalize_filename_fixed.
Qed.

(** X6: every descriptor the album and playlist resolvers build has a
    sanitized title and sanitized artists; the album resolver gives each
    the title of the album. *)
Theorem resolved_track_sanitized (album_name track : json) (s : TrackMetadata) :
  album_track album_name track = Ret s \/ playlist_track track = Ret s ->
  normalize_filename (title s) = title s /\
  normalize_filename (artists s) = artists s /\
  (album_track album_name track = Ret s -> album s = album_name).
Proof.
  intros [H | H].
  - unfold album_track in H.
    apply res_bind_Ret in H as (t0 & _ & H).
    apply res_bind_Ret in H as (t & Ht & H).
    apply res_bind_Ret in H as (a0 & _ & H).
    apply res_bind_Ret in H as (a & Ha & H).
    apply res_bind_Ret in H as (i & _ & H).
    injection H as <-. simpl.
    split; [exact (normalize_value_fixed _ _ Ht)|].
    split; [exact (normalize_value_fixed _ _ Ha) | reflexivity].
  - unfold playlist_track in H.
    apply res_bind_Ret in H as (t0 & _ & H).
    apply res_bind_Ret in H as (t & Ht & H).
    apply res_bind_Ret in H as (a0 & _ & H).
    apply res_bind_Ret in H as (a & Ha & H).
    apply res_bind_Ret in H as (al & _ & H).
    apply res_bind_Ret in H as (i & _ & H).
    injection H as <-. simpl.
    split; [exact (normalize_value_fixed _ _ Ht)|].
    split; [exact (normalize_value_fixed _ _ Ha)|].
    intros H'. unfold album_track in H'.
    apply res_bind_Ret in H' as (t0' & _ & H').
    apply res_bind_Ret in H' as (t' & _ & H').
    apply res_bind_Ret in H' as (a0' & _ & H').
    apply res_bind_Ret in H' as (a' & _ & H').
    apply res_bind_Ret in H' as (i' & _ & H').
    injection H' as _ _ <- _. reflexivity.
Qed.

Lemma resolved_track_sanitized_witness :
  let track := JObj [(cps "title", JStr (cps " What?  A  Title "));
                     (cps "artists", JStr (cps "AC/DC"));
                     (cps "id", JStr (cps "t9"))] in
  let s := {| title := cps "What A Title"; artists := cps "ACDC";
              album := JStr (cps "LP"); tid := JStr (cps "t9") |} in
  album_track (JStr (cps "LP")) track = Ret s /\
  normalize_filename (title s) = title s /\
  normalize_filename (artists s) = artists s.
Proof.
  intros track s.
  assert (H : album_track (JStr (cps "LP")) track = Ret s) by reflexivity.
  destruct (resolved_track_sanitized (JStr (cps "LP")) track s (or_introl H))
    as (Ht & Ha & _).
  split; [exact H|]. split; [exact Ht | exact Ha].
Defined.

(** ** The attempt budget *)

Lemma requests_of_log e w :
  requests_of (trace (log e w))
  = requests_of (trace w) ++ match e with Requested r => [r] | _ => [] end.
Proof.
  unfold requests_of. simpl. rewrite omap_app. destruct e; reflexivity.
Qed.

Lemma slept_of_log e w :
  slept_of (trace (log e w))
  = slept_of (trace w) ++ match e with Slept n => [n] | _ => [] end.
Proof.
  unfold slept_of. simpl. rewrite omap_app. destruct e; reflexivity.
Qed.

(** No [RequestException] leaves a retry loop. *)
Lemma retry_loop_catches {A} (what : target) (op : M A) (exhausted fallthrough : A)
    (max_retries : Z) : forall attempts w,
  fst (retry_loop what op exhausted fallthrough max_retries attempts w)
  <> Raise RequestException.
Proof.
  induction attempts as [|attempt rest IH]; intros w; [discriminate|].
  simpl. destruct (op w) as [[v|e|] w1] eqn:Hop; try discriminate.
  destruct e; try discriminate.
  destruct (attempt <? max_retries - 1); [apply IH | discriminate].
Qed.

Section Budget.

Variable E : env.

(** X7: whatever the environment does and whatever the budget, no
    [RequestException] leaves any of the four network functions. *)
Theorem request_exceptions_are_caught (fuel : nat) (link outpath : str)
    (track : TrackMetadata) (max_retries : Z) (w : world) :
  fst (fetch_track_metadata E link max_retries w) <> Raise RequestException /\
  fst (fetch_album_metadata E link max_retries w) <> Raise RequestException /\
  fst (fetch_playlist_metadata E fuel link max_retries w) <> Raise RequestException /\
  fst (download_track E track outpath max_retries w) <> Raise RequestException.
Proof.
  split; [|split; [|split]]; apply retry_loop_catches.
Qed.

Variable track_id : str.

Hypothesis down : forall history,
  json_reply_fails (server E history (GetDownload track_id)) = true.

Lemma retry_track_down (max_retries : Z) : forall m k w,
  Z.of_nat (k + S m) = max_retries ->
  exists w',
    retry_loop TrackMeta (track_attempt E track_id) JNull JNull max_retries
      (map Z.of_nat (seq k (S m))) w = (Ret JNull, w') /\
    requests_of (trace w')
    = requests_of (trace w) ++ replicate (S m) (GetDownload track_id) /\
    slept_of (trace w') = slept_of (trace w) ++ replicate m 2 /\
    fs w' = fs w.
Proof.
  induction m as [|m IH]; intros k w Hmax.
  - eexists. split; [|split; [|split]].
    + cbn [seq map]. apply retry_loop_gives_up; [|lia].
      apply track_attempt_fails, down.
    + rewrite !requests_of_log. simpl. rewrite app_nil_r. reflexivity.
    + rewrite !slept_of_log. simpl. rewrite !app_nil_r. reflexivity.
    + reflexivity.
  - destruct (IH (S k)
                (after_notice TrackMeta (Z.of_nat k + 2) max_retries
                   (log (Requested (GetDownload track_id)) w)))
      as (w' & Hrun & Hreq & Hslept & Hfs); [lia|].
    exists w'. split; [|split; [|split]].
    + cbn [seq map].
      rewrite (retry_loop_retries _ _ _ _ _ _ _ _ _ (track_attempt_fails E _ _ (down _)))
        by lia.
      exact Hrun.
    + rewrite Hreq. unfold after_notice. rewrite !requests_of_log. simpl.
      rewrite !app_nil_r, <- app_assoc. reflexivity.
    + rewrite Hslept. unfold after_notice. rewrite !slept_of_log. simpl.
      rewrite !app_nil_r, <- app_assoc. reflexivity.
    + rewrite Hfs. reflexivity.
Qed.

End Budget.

(** X8: against a metadata service that fails every time,
    [fetch_track_metadata] returns [None] after exactly [max_retries]
    requests (none when [max_retries] is not positive), sleeping two
    seconds between attempts and not after the last. *)
Theorem fetch_track_metadata_budget (E : env) (link : str) (max_retries : Z)
    (w : world) :
  let r := GetDownload (resource_id link) in
  (forall history, json_reply_fails (server E history r) = true) ->
  exists w',
    fetch_track_metadata E link max_retries w = (Ret JNull, w') /\
    requests_of (trace w')
    = requests_of (trace w) ++ replicate (Z.to_nat max_retries) r /\
    slept_of (trace w')
    = slept_of (trace w) ++ replicate (Z.to_nat max_retries - 1) 2 /\
    fs w' = fs w.
Proof.
  intros r Hdown. unfold fetch_track_metadata, py_range.
  destruct (Z.to_nat max_retries) as [|m] eqn:Hn.
  - exists w. simpl. rewrite !app_nil_r. auto.
  - destruct (retry_track_down E (resource_id link) Hdown max_retries m 0%nat w)
      as (w' & Hrun & Hreq & Hslept & Hfs); [lia|].
    exists w'. split; [exact Hrun|]. split; [exact Hreq|].
    split; [|exact Hfs].
    rewrite Hslept. simpl. rewrite Nat.sub_0_r. reflexivity.
Qed.

Lemma fetch_track_metadata_budget_witness :
  let r := GetDownload (cps "abc") in
  (forall history, json_reply_fails (server (env_of srv_down) history r) = true) /\
  exists w',
    fetch_track_metadata (env_of srv_down) (cps "https://x/track/abc") 5 empty_world
    = (Ret JNull, w') /\
    requests_of (trace w') = [r; r; r; r; r] /\
    slept_of (trace w') = [2; 2; 2; 2].
Proof.
  intros r.
  assert (Hdown : forall history,
            json_reply_fails (server (env_of srv_down) history r) = true)
    by reflexivity.
  split; [exact Hdown|].
  destruct (fetch_track_metadata_budget (env_of srv_down) (cps "https://x/track/abc")
              5 empty_world Hdown) as (w' & Hrun & Hreq & Hslept & _).
  exists w'. split; [exact Hrun|]. split; [exact Hreq | exact Hslept].
Defined.

(** ** Album metadata *)

Section AlbumMetadata.

Variable E : env.

Lemma py_getitem_raises v key e :
  py_getitem v key = Raise e -> e <> RequestException.
Proof.
  destruct v; simpl; try (intros [= <-]; discriminate).
  destruct (assoc key kvs); [discriminate | intros [= <-]; discriminate].
Qed.

(** X9: when the album metadata arrives without a usable [title] the
    [KeyError] (or [TypeError]) is not a [RequestException]: it leaves
    [fetch_album_metadata] at once, after the one request, with no retry
    and no notice. *)
Theorem album_without_title (link : str) (max_retries : Z) (w : world)
    (resp : response) (meta : json) (e : exn) :
  let r := GetAlbumMeta (resource_id link) in
  0 < max_retries ->
  server E (requests_of (trace w)) r = Responded resp ->
  http_error resp = false ->
  body_json resp = Some meta ->
  py_getitem meta (cps "title") = Raise e ->
  fetch_album_metadata E link max_retries w = (Raise e, log (Requested r) w).
Proof.
  intros r Hmax Hreply Herr Hbody Htitle. subst r. unfold fetch_album_metadata.
  destruct (py_range_pos max_retries Hmax) as [rest ->].
  apply retry_loop_propagates; [|exact (py_getitem_raises _ _ _ Htitle)].
  unfold album_attempt.
  erewrite bind_ret by (unfold requests_get; rewrite Hreply; reflexivity).
  erewrite bind_ret by (unfold raise_for_status; rewrite Herr; reflexivity).
  erewrite bind_ret by (unfold response_json; rewrite Hbody; reflexivity).
  erewrite bind_raise by (unfold lift; rewrite Htitle; reflexivity).
  reflexivity.
Qed.

(** X10: when both album requests succeed, [fetch_album_metadata] makes
    exactly these two requests and returns one descriptor per entry of the
    track list, in its order, each with the album's title as its album. *)
Theorem album_resolved (link : str) (max_retries : Z) (w : world)
    (resp1 resp2 : response) (meta name by_whom data track_list : json)
    (tracks : list json) (songs : list TrackMetadata) :
  let id := resource_id link in
  let h := requests_of (trace w) in
  0 < max_retries ->
  server E h (GetAlbumMeta id) = Responded resp1 ->
  http_error resp1 = false ->
  body_json resp1 = Some meta ->
  py_getitem meta (cps "title") = Ret name ->
  py_getitem meta (cps "artists") = Ret by_whom ->
  server E (h ++ [GetAlbumMeta id]) (GetAlbumTracks id) = Responded resp2 ->
  http_error resp2 = false ->
  body_json resp2 = Some data ->
  py_getitem data (cps "trackList") = Ret track_list ->
  py_iter track_list = Ret tracks ->
  res_mapM (album_track name) tracks = Ret songs ->
  fetch_album_metadata E link max_retries w
  = (Ret (Fetched songs name),
     log (Requested (GetAlbumTracks id))
       (log (Printed (MGettingSongs Album))
          (log (Printed (MCollection Album name by_whom))
             (log (Requested (GetAlbumMeta id)) w)))) /\
  Forall2 (fun track song => album_track name track = Ret song) tracks songs /\
  Forall (fun song => album song = name) songs.
Proof.
  intros id h Hmax Hr1 He1 Hb1 Htitle Hby Hr2 He2 Hb2 Htl Hiter Hsongs.
  subst id h.
  assert (Hall : Forall2 (fun track song => album_track name track = Ret song)
                   tracks songs) by (apply res_mapM_Forall2; exact Hsongs).
  split; [|split; [exact Hall|]].
  - unfold fetch_album_metadata.
    destruct (py_range_pos max_retries Hmax) as [rest ->].
    apply retry_loop_returns. unfold album_attempt.
    erewrite bind_ret by (unfold requests_get; rewrite Hr1; reflexivity).
    erewrite bind_ret by (unfold raise_for_status; rewrite He1; reflexivity).
    erewrite bind_ret by (unfold response_json; rewrite Hb1; reflexivity).
    erewrite bind_ret by (unfold lift; rewrite Htitle; reflexivity).
    erewrite bind_ret by (unfold lift; rewrite Hby; reflexivity).
    erewrite bind_ret by reflexivity.
    erewrite bind_ret by reflexivity.
    erewrite bind_ret.
    2:{ unfold requests_get.
        rewrite requests_of_log_print, requests_of_log_print, requests_of_log_request.
        rewrite Hr2. reflexivity. }
    erewrite bind_ret by (unfold raise_for_status; rewrite He2; reflexivity).
    erewrite bind_ret by (unfold response_json; rewrite Hb2; reflexivity).
    erewrite bind_ret by (unfold lift; rewrite Htl; reflexivity).
    erewrite bind_ret by (unfold lift; rewrite Hiter; reflexivity).
    erewrite bind_ret by (unfold lift; rewrite Hsongs; reflexivity).
    reflexivity.
  - clear -Hall. induction Hall as [|track song tracks songs Hone _ IH]; constructor.
    + unfold album_track in Hone.
      apply res_bind_Ret in Hone as (? & _ & Hone).
      apply res_bind_Ret in Hone as (? & _ & Hone).
      apply res_bind_Ret in Hone as (? & _ & Hone).
      apply res_bind_Ret in Hone as (? & _ & Hone).
      apply res_bind_Ret in Hone as (? & _ & Hone).
      injection Hone as <-. reflexivity.
    + exact IH.
Qed.

End AlbumMetadata.

Lemma album_without_title_witness :
  let link := cps "https://open.spotify.com/album/xyz" in
  0 < 3 /\
  fetch_album_metadata (env_of srv_untitled) link 3 empty_world
  = (Raise KeyError, log (Requested (GetAlbumMeta (cps "xyz"))) empty_world).
Proof.
  intros link. assert (H : 0 < 3) by lia. split; [exact H|].
  exact (album_without_title (env_of srv_untitled) link 3 empty_world _ _ KeyError
           H eq_refl eq_refl eq_refl eq_refl).
Defined.

Lemma album_resolved_witness :
  let link := cps "https://open.spotify.com/album/xyz" in
  0 < 3 /\
  exists w',
    fetch_album_metadata (env_of srv_album) link 3 empty_world
    = (Ret (Fetched five_songs (JStr (cps "LP"))), w') /\
    requests_of (trace w') = [GetAlbumMeta (cps "xyz"); GetAlbumTracks (cps "xyz")].
Proof.
  intros link. assert (H : 0 < 3) by lia. split; [exact H|].
  destruct (album_resolved (env_of srv_album) link 3 empty_world _ _ _ _ _ _ _ _
              five_songs H eq_refl eq_refl eq_refl eq_refl eq_refl eq_refl eq_refl
              eq_refl eq_refl eq_refl eq_refl) as (Hrun & _ & _).
  eexists. split; [exact Hrun | reflexivity].
Defined.

(** ** Pagination that does not end well *)

Section PaginationMore.

Variable E : env.
Variable playlist_id : str.

(** One turn of the loop on a page with a truthy next offset. *)
Lemma fetch_pages_turn fuel track_list offset w resp data items next :
  server E (requests_of (trace w)) (GetPlaylistTracks playlist_id offset)
  = Responded resp ->
  http_error resp = false ->
  body_json resp = Some data ->
  is_page data items next ->
  truthy next = true ->
  fetch_pages E (S fuel) playlist_id track_list offset w
  = fetch_pages E fuel playlist_id (track_list ++ items) next
      (log (Requested (GetPlaylistTracks playlist_id offset)) w).
Proof.
  intros Hreply Herr Hbody [(page & Hpage & Hiter) Hnext] Htruthy.
  cbn [fetch_pages].
  erewrite bind_ret by (unfold requests_get; rewrite Hreply; reflexivity).
  erewrite bind_ret by (unfold raise_for_status; rewrite Herr; reflexivity).
  erewrite bind_ret by (unfold response_json; rewrite Hbody; reflexivity).
  erewrite bind_ret by (unfold lift; rewrite Hpage; reflexivity).
  erewrite bind_ret by (unfold lift; rewrite Hiter; reflexivity).
  erewrite bind_ret by (unfold lift; rewrite Hnext; reflexivity).
  rewrite Htruthy. reflexivity.
Qed.

(** One turn of the loop on a failed request. *)
Lemma fetch_pages_fails fuel track_list offset w :
  json_reply_fails
    (server E (requests_of (trace w)) (GetPlaylistTracks playlist_id offset)) = true ->
  fetch_pages E (S fuel) playlist_id track_list offset w
  = (Raise RequestException,
     log (Requested (GetPlaylistTracks playlist_id offset)) w).
Proof.
  intros Hfail. cbn [fetch_pages]. unfold bind at 1. unfold requests_get.
  destruct (server E (requests_of (trace w)) (GetPlaylistTracks playlist_id offset))
    as [|resp]; [reflexivity|].
  simpl in Hfail. unfold bind at 1. unfold raise_for_status.
  destruct (http_error resp); [reflexivity|].
  simpl in Hfail. unfold ret, bind at 1. unfold response_json.
  destruct (body_json resp); [discriminate | reflexivity].
Qed.

(** X11: the loop has no bound of its own.  Against a service whose every
    page names a truthy next offset it is still asking after any number
    of pages: whatever the fuel, it is used up, one request per unit. *)
Theorem pagination_never_ends :
  (forall history offset, exists resp data items next,
     server E history (GetPlaylistTracks playlist_id offset) = Responded resp /\
     http_error resp = false /\
     body_json resp = Some data /\
     is_page data items next /\
     truthy next = true) ->
  forall fuel track_list offset w, exists w',
    fetch_pages E fuel playlist_id track_list offset w = (OutOfFuel, w') /\
    length (requests_of (trace w')) = (length (requests_of (trace w)) + fuel)%nat.
Proof.
  intros Hserver. induction fuel as [|fuel IH]; intros track_list offset w.
  - exists w. split; [reflexivity | lia].
  - destruct (Hserver (requests_of (trace w)) offset)
      as (resp & data & items & next & Hreply & Herr & Hbody & Hpage & Htruthy).
    rewrite (fetch_pages_turn _ _ _ _ _ _ _ _ Hreply Herr Hbody Hpage Htruthy).
    destruct (IH (track_list ++ items) next
                (log (Requested (GetPlaylistTracks playlist_id offset)) w))
      as (w' & Hrun & Hlen).
    exists w'. split; [exact Hrun|].
    rewrite Hlen, requests_of_log_request, length_app. simpl. lia.
Qed.

Lemma fetch_pages_breaks pages : forall fuel track_list offset w,
  breaks_after E playlist_id (requests_of (trace w)) offset pages ->
  (length pages < fuel)%nat ->
  exists w',
    fetch_pages E fuel playlist_id track_list offset w
    = (Raise RequestException, w') /\
    length (requests_of (trace w'))
    = (length (requests_of (trace w)) + S (length pages))%nat /\
    fs w' = fs w.
Proof.
  induction pages as [|[items next] rest IH]; intros fuel track_list offset w Hb Hfuel;
    (destruct fuel as [|fuel]; [simpl in Hfuel; lia|]).
  - eexists. split; [apply fetch_pages_fails; exact Hb|].
    rewrite requests_of_log_request, length_app. simpl. split; [lia | reflexivity].
  - destruct Hb as (resp & data & Hreply & Herr & Hbody & Hpage & Htruthy & Hrest).
    rewrite (fetch_pages_turn _ _ _ _ _ _ _ _ Hreply Herr Hbody Hpage Htruthy).
    destruct (IH fuel (track_list ++ items) next
                (log (Requested (GetPlaylistTracks playlist_id offset)) w))
      as (w' & Hrun & Hlen & Hfs).
    + rewrite requests_of_log_request. exact Hrest.
    + simpl in Hfuel. lia.
    + exists w'. split; [exact Hrun|]. split; [|exact Hfs].
      rewrite Hlen, requests_of_log_request, length_app. simpl. lia.
Qed.

End PaginationMore.

(** X12: no partial playlist is returned.  When the service serves some
    pages and then fails, the attempt raises and the pages read so far are
    dropped; with a budget of one attempt the resolver returns
    [(None, None)]. *)
Theorem no_partial_playlist (E : env) (fuel : nat) (link : str) (w : world)
    (resp : response) (meta name by_whom : json)
    (pages : list (list json * json)) :
  let playlist_id := resource_id link in
  let h := requests_of (trace w) in
  server E h (GetPlaylistMeta playlist_id) = Responded resp ->
  http_error resp = false ->
  body_json resp = Some meta ->
  py_getitem meta (cps "title") = Ret name ->
  py_getitem meta (cps "artists") = Ret by_whom ->
  breaks_after E playlist_id (h ++ [GetPlaylistMeta playlist_id]) (JNum 0) pages ->
  (length pages < fuel)%nat ->
  exists w',
    fetch_playlist_metadata E fuel link 1 w = (Ret NonePair, w') /\
    length (requests_of (trace w')) = (length h + 2 + length pages)%nat /\
    fs w' = fs w.
Proof.
  intros playlist_id h Hreply Herr Hbody Htitle Hby Hbreaks Hfuel.
  subst playlist_id h.
  destruct (fetch_pages_breaks E (resource_id link) pages fuel [] (JNum 0)
              (log (Printed (MGettingSongs Playlist))
                 (log (Printed (MCollection Playlist name by_whom))
                    (log (Requested (GetPlaylistMeta (resource_id link))) w))))
    as (w1 & Hrun & Hlen & Hfs).
  { rewrite requests_of_log_print, requests_of_log_print, requests_of_log_request.
    exact Hbreaks. }
  { exact Hfuel. }
  exists (log (Printed (MGaveUp PlaylistMeta 1)) w1). split; [|split].
  - unfold fetch_playlist_metadata.
    change (py_range 1) with [0].
    apply retry_loop_gives_up; [|lia].
    unfold playlist_attempt.
    erewrite bind_ret by (unfold requests_get; rewrite Hreply; reflexivity).
    erewrite bind_ret by (unfold raise_for_status; rewrite Herr; reflexivity).
    erewrite bind_ret by (unfold response_json; rewrite Hbody; reflexivity).
    erewrite bind_ret by (unfold lift; rewrite Htitle; reflexivity).
    erewrite bind_ret by (unfold lift; rewrite Hby; reflexivity).
    erewrite bind_ret by reflexivity.
    erewrite bind_ret by reflexivity.
    erewrite bind_raise by exact Hrun.
    reflexivity.
  - rewrite requests_of_log_print, Hlen.
    rewrite requests_of_log_print, requests_of_log_print, requests_of_log_request.
    rewrite length_app. simpl. lia.
  - simpl. rewrite Hfs. reflexivity.
Qed.

Lemma pagination_never_ends_witness :
  let E := env_of srv_endless in
  (forall history offset, exists resp data items next,
     server E history (GetPlaylistTracks (cps "xyz") offset) = Responded resp /\
     http_error resp = false /\
     body_json resp = Some data /\
     is_page data items next /\
     truthy next = true) /\
  exists w',
    fetch_pages E 50 (cps "xyz") [] (JNum 0) empty_world = (OutOfFuel, w') /\
    length (requests_of (trace w')) = 50%nat.
Proof.
  intros E.
  assert (Hserver : forall history offset, exists resp data items next,
            server E history (GetPlaylistTracks (cps "xyz") offset) = Responded resp /\
            http_error resp = false /\
            body_json resp = Some data /\
            is_page data items next /\
            truthy next = true).
  { intros history offset. eexists _, _, _, _.
    split; [reflexivity|]. split; [reflexivity|]. split; [reflexivity|].
    split; [split; [eexists; split; reflexivity | reflexivity] | reflexivity]. }
  split; [exact Hserver|].
  destruct (pagination_never_ends E (cps "xyz") Hserver 50%nat [] (JNum 0) empty_world)
    as (w' & Hrun & Hlen).
  exists w'. split; [exact Hrun | exact Hlen].
Defined.

Lemma no_partial_playlist_witness :
  let E := env_of srv_one_page in
  let link := cps "https://open.spotify.com/playlist/xyz" in
  breaks_after E (cps "xyz") [GetPlaylistMeta (cps "xyz")] (JNum 0)
    [([numbered_track 0], JNum 1)] /\
  exists w',
    fetch_playlist_metadata E 5 link 1 empty_world = (Ret NonePair, w') /\
    length (requests_of (trace w')) = 3%nat.
Proof.
  intros E link.
  assert (Hb : breaks_after E (cps "xyz") [GetPlaylistMeta (cps "xyz")] (JNum 0)
                 [([numbered_track 0], JNum 1)]).
  { cbn [breaks_after]. eexists _, _.
    split; [reflexivity|]. split; [reflexivity|]. split; [reflexivity|].
    split; [split; [eexists; split; reflexivity | reflexivity]|].
    split; reflexivity. }
  split; [exact Hb|].
  destruct (no_partial_playlist E 5 link empty_world _ _ (JStr (cps "Mix"))
              (JStr (cps "Someone")) [([numbered_track 0], JNum 1)]
              eq_refl eq_refl eq_refl eq_refl eq_refl Hb) as (w' & Hrun & Hlen & _).
  { simpl. lia. }
  exists w'. split; [exact Hrun | exact Hlen].
Defined.

(** ** More on downloads *)

(** A retry loop keeps whatever its operation, its notices and its final
    report keep. *)
Lemma retry_loop_keeps {A} (what : target) (op : M A) (exhausted fallthrough : A)
    (max_retries : Z) (keeps : world -> world -> Prop) :
  (forall w, keeps w w) ->
  (forall w1 w2 w3, keeps w1 w2 -> keeps w2 w3 -> keeps w1 w3) ->
  (forall k w, keeps w (after_notice what k max_retries w)) ->
  (forall w, keeps w (log (Printed (MGaveUp what max_retries)) w)) ->
  (forall w r w', op w = (r, w') -> keeps w w') ->
  forall attempts w r w',
    retry_loop what op exhausted fallthrough max_retries attempts w = (r, w') ->
    keeps w w'.
Proof.
  intros Hrefl Htrans Hnotice Hreport Hop.
  induction attempts as [|attempt rest IH]; intros w r w' Hrun.
  - injection Hrun as _ <-. apply Hrefl.
  - simpl in Hrun. destruct (op w) as [r1 w1] eqn:Hop1.
    pose proof (Hop _ _ _ Hop1) as Hk.
    destruct r1 as [v|e|]; try (injection Hrun as _ <-; exact Hk).
    destruct e; try (injection Hrun as _ <-; exact Hk).
    destruct (attempt <? max_retries - 1).
    + apply (Htrans _ _ _ Hk).
      refine (Htrans _ _ _ (Hnotice (attempt + 2) w1) _).
      apply IH with (r := r). exact Hrun.
    + injection Hrun as _ <-. apply (Htrans _ _ _ Hk), Hreport.
Qed.

Section DownloadMore.

Variable E : env.


Lemma download_attempt_frame trackname tid outpath w r w' :
  download_attempt E trackname tid outpath w = (r, w') ->
  forall p, p <> path_join outpath (normalize_filename trackname ++ cps ".mp3") ->
            fs w' !! p = fs w !! p.
Proof.
  intros Hrun p Hp. unfold download_attempt, bind in Hrun.
  destruct (fs w !! path_join outpath (normalize_filename trackname ++ cps ".mp3"))
    as [data|] eqn:Hfile.
  - rewrite persist_existing in Hrun by (rewrite Hfile; eauto).
    injection Hrun as _ <-. reflexivity.
  - rewrite persist_absent in Hrun by exact Hfile.
    destruct (server E (requests_of (trace w)) (GetAudio tid)) as [|resp];
      [injection Hrun as _ <-; reflexivity|].
    destruct (http_error resp); [injection Hrun as _ <-; reflexivity|].
    destruct (status_code resp =? 200); [|injection Hrun as _ <-; reflexivity].
    destruct (open_fails E _); injection Hrun as _ <-; [reflexivity|].
    simpl. apply lookup_insert_ne. congruence.
Qed.

(** Whatever happens, [download_track] leaves every file other than its
    target as it was. *)
Lemma download_track_others (track : TrackMetadata) (outpath : str)
    (max_retries : Z) (w : world) (r : res (option bool)) (w' : world) :
  download_track E track outpath max_retries w = (r, w') ->
  forall p,
    p <> path_join outpath (normalize_filename (trackname_of track) ++ cps ".mp3") ->
    fs w' !! p = fs w !! p.
Proof.
  intros Hrun p Hp. unfold download_track in Hrun.
  erewrite bind_ret in Hrun by reflexivity.
  refine (retry_loop_keeps Download _ _ _ max_retries
            (fun w1 w2 => fs w2 !! p = fs w1 !! p) _ _ _ _ _ _ _ _ _ Hrun);
    try reflexivity.
  - intros w1 w2 w3 H12 H23. congruence.
  - intros w1 r1 w2 Hop. exact (download_attempt_frame _ _ _ _ _ _ Hop p Hp).
Qed.

(** X14: whatever happens during a batch, and however it ends, every file
    that is not the target of one of its items is left as it was. *)
Theorem download_all_frame (songs : list TrackMetadata) (outpath : str) :
  forall (w : world) (r : res unit) (w' : world),
  download_all E songs outpath w = (r, w') ->
  forall p,
    (forall track, In track songs ->
       p <> path_join outpath
              (normalize_filename (trackname_of track) ++ cps ".mp3")) ->
    fs w' !! p = fs w !! p.
Proof.
  induction songs as [|track rest IH]; intros w r w' Hrun p Hp.
  - injection Hrun as _ <-. reflexivity.
  - simpl in Hrun. unfold bind in Hrun.
    destruct (download_track E track outpath 3 w) as [r1 w1] eqn:Hone.
    pose proof (download_track_others _ _ _ _ _ _ Hone p (Hp track (or_introl eq_refl)))
      as Hkeep.
    destruct r1 as [v|e|]; try (injection Hrun as _ <-; exact Hkeep).
    rewrite <- Hkeep. apply (IH _ _ _ Hrun).
    intros track' Hin. apply Hp. right. exact Hin.
Qed.

End DownloadMore.



Lemma download_all_frame_witness :
  let E := env_of srv_audio in
  let songs := [song "Two" "Band" "t2"; song "Three" "Band" "t3"] in
  exists r w',
    download_all E songs (cps "/music") world_with_file = (r, w') /\
    fs w' !! cps "/music/One - Band.mp3" = Some [1; 2; 3]%N.
Proof.
  intros E songs.
  destruct (download_all E songs (cps "/music") world_with_file) as [r w'] eqn:Hrun.
  exists r, w'. split; [reflexivity|].
  rewrite (download_all_frame E songs (cps "/music") world_with_file r w' Hrun).
  - reflexivity.
  - intros track [<- | [<- | []]]; vm_compute; discriminate.
Defined.

(** ** More on selections and on [main] *)

Section MainMore.

Variable E : env.




Lemma album_attempt_fails album_id w :
  json_reply_fails (server E (requests_of (trace w)) (GetAlbumMeta album_id)) = true ->
  album_attempt E album_id w
  = (Raise RequestException, log (Requested (GetAlbumMeta album_id)) w).
Proof.
  intros Hfail. unfold album_attempt. unfold bind at 1. unfold requests_get.
  destruct (server E (requests_of (trace w)) (GetAlbumMeta album_id)) as [|resp];
    [reflexivity|].
  simpl in Hfail. unfold bind at 1. unfold raise_for_status.
  destruct (http_error resp); [reflexivity|].
  simpl in Hfail. unfold ret, bind at 1. unfold response_json.
  destruct (body_json resp); [discriminate | reflexivity].
Qed.

(** X17: when the album metadata cannot be fetched in three attempts,
    [main] says so and stops: no listing, no selection, no directory, no
    download, and not the closing lines either. *)
Theorem album_resolution_failure (fuel : nat) (cwd url selection : str) (w : world) :
  let r := GetAlbumMeta (resource_id url) in
  let h := requests_of (trace w) in
  py_contains (cps "album") url = true ->
  json_reply_fails (server E h r) = true ->
  json_reply_fails (server E (h ++ [r]) r) = true ->
  json_reply_fails (server E (h ++ [r; r]) r) = true ->
  main E fuel cwd url selection w
  = (Ret tt,
     log (Printed (MFetchFailed Album))
       (log (Printed (MGaveUp AlbumMeta 3))
          (log (Requested r)
             (after_notice AlbumMeta 3 3
                (log (Requested r)
                   (after_notice AlbumMeta 2 3 (log (Requested r) w))))))).
Proof.
  intros r h Halbum H1 H2 H3. subst r h. unfold main. rewrite Halbum.
  erewrite bind_ret.
  2:{ unfold fetch_album_metadata. erewrite retry_loop_third.
      - apply retry_loop_gives_up; [|lia].
        apply album_attempt_fails. unfold after_notice.
        rewrite requests_of_log_sleep, requests_of_log_print, requests_of_log_request,
          requests_of_log_sleep, requests_of_log_print, requests_of_log_request.
        rewrite <- app_assoc. exact H3.
      - apply album_attempt_fails. exact H1.
      - apply album_attempt_fails. unfold after_notice.
        rewrite requests_of_log_sleep, requests_of_log_print, requests_of_log_request.
        exact H2. }
  reflexivity.
Qed.

(** X18: only [success] being [False] (or 0) stops a single-track run.  A
    response without the field goes on to the download, with the title and
    artists sanitized and the album [Unknown Album] when none is given. *)
Theorem track_without_success_field (cwd url : str) (w : world) (resp : response)
    (kvs mkvs : list (str * json)) (t a : str) (i : json) :
  let r := GetDownload (resource_id url) in
  server E (requests_of (trace w)) r = Responded resp ->
  http_error resp = false ->
  body_json resp = Some (JObj kvs) ->
  eq_False (default JNull (assoc (cps "success") kvs)) = false ->
  assoc (cps "metadata") kvs = Some (JObj mkvs) ->
  assoc (cps "title") mkvs = Some (JStr t) ->
  assoc (cps "artists") mkvs = Some (JStr a) ->
  assoc (cps "id") mkvs = Some i ->
  main_track E cwd url w
  = bind (download_track E
            {| title := normalize_filename t;
               artists := normalize_filename a;
               album := default (JStr (cps "Unknown Album")) (assoc (cps "album") mkvs);
               tid := i |} cwd 3)
         (fun _ => print MCompleted)
         (log (Requested r) w).
Proof.
  intros r Hreply Herr Hbody Hsuccess Hmeta Htitle Hartists Hid. subst r.
  unfold main_track.
  etransitivity.
  { apply bind_ret. unfold fetch_track_metadata. rewrite py_range_3.
    apply retry_loop_returns.
    apply (track_attempt_returns _ _ _ _ _ Hreply Herr Hbody). }
  etransitivity.
  { apply bind_ret. unfold lift, py_get. simpl. rewrite Hsuccess. reflexivity. }
  cbv beta iota.
  etransitivity.
  { apply bind_ret. unfold lift, py_getitem, py_get. rewrite Hmeta. simpl.
    rewrite Htitle. simpl. rewrite Hartists. simpl. rewrite Hid. simpl.
    reflexivity. }
  reflexivity.
Qed.

End MainMore.

Lemma album_resolution_failure_witness :
  let url := cps "https://open.spotify.com/album/xyz" in
  let r := GetAlbumMeta (cps "xyz") in
  py_contains (cps "album") url = true /\
  exists w',
    main (env_of srv_down) 0 (cps "/music") url (cps "1 2") empty_world = (Ret tt, w') /\
    requests_of (trace w') = [r; r; r] /\
    printed_of (trace w')
    = [MRetrying AlbumMeta 2 3; MRetrying AlbumMeta 3 3; MGaveUp AlbumMeta 3;
       MFetchFailed Album] /\
    fs w' = ∅.
Proof.
  intros url r.
  assert (Halbum : py_contains (cps "album") url = true) by reflexivity.
  split; [exact Halbum|].
  eexists. split.
  - exact (album_resolution_failure (env_of srv_down) 0 (cps "/music") url (cps "1 2")
             empty_world Halbum eq_refl eq_refl eq_refl).
  - repeat split.
Defined.

Lemma track_without_success_field_witness :
  let url := cps "https://open.spotify.com/track/abc" in
  exists w',
    main_track (env_of srv_plain) (cps "/music") url empty_world = (Ret tt, w') /\
    fs w' !! cps "/music/One - Band.mp3" = Some [73; 68; 51]%N.
Proof.
  intros url. eexists. split.
  - rewrite (track_without_success_field (env_of srv_plain) (cps "/music") url
               empty_world _ _ _ (cps "One") (cps "Band") (JStr (cps "t1"))
               eq_refl eq_refl eq_refl eq_refl eq_refl eq_refl eq_refl eq_refl).
    vm_compute. reflexivity.
  - vm_compute. reflexivity.
Defined.

(** ** A collection run *)

Section CollectionRun.

Variable E : env.

Hypothesis writable : forall path, open_fails E path = false.



End CollectionRun.


(** The files of that run, in the directory named by the sanitized
    title. *)
Example collection_run_files :
  let outcome := main_collection (env_of srv_audio) Album
                   (Fetched five_songs (JStr (cps "Greatest: Hits")))
                   (cps "/music") (cps "2 4") empty_world in
  wrote_of (trace (snd outcome))
  = [cps "/music/Greatest Hits/Two - Band.mp3";
     cps "/music/Greatest Hits/Four - Band.mp3"].
Proof. vm_compute. reflexivity. Qed.
